(** * BluePath: a shallow embedding of the route planner front end

    The development follows the TypeScript sources:
    - [RouteControls.tsx]: [generateRoute], [generateCurvedPath],
      [calculateDistance];
    - [TelemetryPanel.tsx]: the interval callback of [startSimulation];
    - [AuditLog.tsx]: [verifyChain] and the initial entries;
    - [Index.tsx]: [handleRouteGenerated], [handleTelemetryUpdate];
    - [Header.tsx]: the mode switch;
    - [MapView.tsx]: the two route effects, [animate] and the route box.

    JavaScript numbers are idealised: a [number] is either [NaN] or a real
    number.  Rounding of IEEE doubles and the infinities are not modelled;
    [Math.sin], [Math.cos], [Math.sqrt] and [Math.atan2] are the
    mathematical functions.  The code computes in doubles, where a value
    differs from the exact one by rounding and a square root can meet an
    argument that rounding made negative.  What is stated of a computed
    value is therefore stated with a margin, or with [NaN] as an
    alternative, for coordinates in range; equalities are stated where
    doubles give the same. *)

From Stdlib Require Import Reals Lra Lia ZArith QArith Qround List String Bool.
From Stdlib Require Import DecimalString Machin.
From Stdlib Require Lqa.
Import ListNotations.

(** ** JavaScript numbers and the [Math] object *)

Module JS.

Local Open Scope R_scope.

Inductive number : Type :=
| NaN : number
| Num : R -> number.

Definition lift1 (f : R -> R) (x : number) : number :=
  match x with
  | Num a => Num (f a)
  | NaN => NaN
  end.

Definition lift2 (f : R -> R -> R) (x y : number) : number :=
  match x, y with
  | Num a, Num b => Num (f a b)
  | _, _ => NaN
  end.

Definition add : number -> number -> number := lift2 Rplus.
Definition sub : number -> number -> number := lift2 Rminus.
Definition mul : number -> number -> number := lift2 Rmult.

(** [x / y].  A zero divisor gives an infinity or [NaN] in JavaScript; the
    model has no infinities and answers [NaN].  Every divisor in the
    sources is a non-zero constant, but for [points]. *)
Definition div (x y : number) : number :=
  match x, y with
  | Num a, Num b => if Req_dec_T b 0 then NaN else Num (a / b)
  | _, _ => NaN
  end.

(** A numeric literal and a loop counter seen as numbers. *)
Definition lit (z : Z) : number := Num (IZR z).
Definition of_nat (n : nat) : number := Num (INR n).

(** [1/2] as a number, for the literal [0.5]. *)
Definition half : number := Num (/ 2).

Definition Math_PI : number := Num PI.
Definition Math_sin : number -> number := lift1 sin.
Definition Math_cos : number -> number := lift1 cos.

(** [Math.sqrt] is [NaN] below zero. *)
Definition Math_sqrt (x : number) : number :=
  match x with
  | Num a => if Rlt_dec a 0 then NaN else Num (sqrt a)
  | NaN => NaN
  end.

(** The two-argument arctangent on real arguments: the angle of the point
    [(x, y)], in [(-PI, PI]], and [0] at the origin. *)
Definition atan2 (y x : R) : R :=
  if Rlt_dec 0 x then atan (y / x)
  else if Rlt_dec x 0 then
         (if Rle_dec 0 y then atan (y / x) + PI else atan (y / x) - PI)
  else if Rlt_dec 0 y then PI / 2
  else if Rlt_dec y 0 then - (PI / 2)
  else 0.

Definition Math_atan2 : number -> number -> number := lift2 atan2.

(** [Math.round]: the nearest integer, halves going up, [floor (x + 1/2)]. *)
Definition round (a : R) : Z := Int_part (a + / 2).
Definition Math_round (x : number) : number :=
  match x with
  | Num a => Num (IZR (round a))
  | NaN => NaN
  end.

(** [a[i]] on an array of numbers; reading past the end gives [undefined],
    which every arithmetic operator turns into [NaN]. *)
Definition get (a : list number) (i : nat) : number := nth i a NaN.

(** [a.slice(start)]: a negative [start] counts from the end, and the bounds
    are clamped to the array. *)
Definition slice {A : Type} (start : Z) (a : list A) : list A :=
  let len := Z.of_nat (List.length a) in
  let k := if (start <? 0)%Z then Z.max (len + start) 0 else Z.min start len in
  skipn (Z.to_nat k) a.

(** [x.toFixed(2)], kept as the number of hundredths the string denotes:
    the nearest multiple of [1/100], the larger one on a tie. *)
Definition toFixed2 (x : Q) : Z := Qfloor (x * 100 + (1 # 2))%Q.

End JS.

Export JS.

Declare Scope js_scope.
Delimit Scope js_scope with js.
Infix "+" := JS.add : js_scope.
Infix "-" := JS.sub : js_scope.
Infix "*" := JS.mul : js_scope.
Infix "/" := JS.div : js_scope.

(** ** Data *)

Local Open Scope string_scope.

(** A waypoint is a two-element array [[lat, lon]]. *)
Definition waypoint : Type := list number.

Record Optimization : Type := mkOptimization {
  opt_fuel : Z;
  opt_time : Z;
  opt_safety : Z
}.

Record Route : Type := mkRoute {
  path : list waypoint;
  distance : number;
  eta : string;
  fuel : number;
  optimization : Optimization;
  quantumEnhanced : bool
}.

(** A telemetry sample as built by the simulation: an ISO time stamp and
    five readings printed with two decimals (held in hundredths). *)
Record TelemetrySample : Type := mkSample {
  timestamp : string;
  waveHeight : Z;
  windSpeed : Z;
  current : Z;
  visibility : Z;
  temperature : Z
}.

Record AuditEntry : Type := mkEntry {
  entry_id : Z;
  action : string;
  hash : string;
  entry_timestamp : string;
  verified : bool
}.

Inductive ToastKind : Type := Success | Warning | Error | Info.

Record Toast : Type := mkToast {
  kind : ToastKind;
  message : string;
  description : option string
}.

(** The text fields of the form hold the coordinates; [generateRoute] reads
    them through [parseFloat].  The model keeps the parsed values. *)
Record Form : Type := mkForm {
  startLat : number;
  startLon : number;
  destLat : number;
  destLon : number;
  fuelPriority : Z;
  timePriority : Z;
  safetyPriority : Z
}.

(** The state of the page: the [useState] cells of [Index], [RouteControls]
    and [AuditLog], and the toasts shown so far. *)
Record App : Type := mkApp {
  route : option Route;
  telemetry : list TelemetrySample;
  isQuantumMode : bool;
  loading : bool;
  form : Form;
  entries : list AuditEntry;
  toasts : list Toast
}.

(** ** RouteControls.tsx *)

Module RouteControls.

Local Open Scope js_scope.

(** The body of the [for] loop of [generateCurvedPath] at counter [i]. *)
Definition curvePoint (start dest : waypoint) (points i : nat) : waypoint :=
  let t := of_nat i / of_nat points in
  let lat := get start 0 + (get dest 0 - get start 0) * t
             + Math_sin (t * Math_PI) * lit 2 in
  let lon := get start 1 + (get dest 1 - get start 1) * t
             + Math_cos (t * Math_PI) * lit 1 in
  [lat; lon].

(** [for (let i = ...; i <= points; i++) path.push(...)], with [k] rounds
    left to run. *)
Fixpoint curveLoop (start dest : waypoint) (points k i : nat)
         (path : list waypoint) : list waypoint :=
  match k with
  | O => path
  | S k' =>
      curveLoop start dest points k' (S i)
                (path ++ [curvePoint start dest points i])
  end.

Definition generateCurvedPath (start dest : waypoint) (points : nat)
  : list waypoint :=
  curveLoop start dest points (S points) 0 [].

Definition calculateDistance (start dest : waypoint) : number :=
  let R := lit 3440 in
  let lat1 := get start 0 * Math_PI / lit 180 in
  let lat2 := get dest 0 * Math_PI / lit 180 in
  let dLat := (get dest 0 - get start 0) * Math_PI / lit 180 in
  let dLon := (get dest 1 - get start 1) * Math_PI / lit 180 in
  let a := Math_sin (dLat / lit 2) * Math_sin (dLat / lit 2)
           + Math_cos lat1 * Math_cos lat2
             * Math_sin (dLon / lit 2) * Math_sin (dLon / lit 2) in
  let c := lit 2 * Math_atan2 (Math_sqrt a) (Math_sqrt (lit 1 - a)) in
  R * c.

(** The object literal built by [generateRoute]. *)
Definition buildRoute (f : Form) (isQuantumMode : bool) : Route :=
  let start := [startLat f; startLon f] in
  let dest := [destLat f; destLon f] in
  let path := generateCurvedPath start dest 20 in
  {| path := path;
     distance := Math_round (calculateDistance start dest);
     eta := "48 hrs";
     fuel := Math_round (calculateDistance start dest * half);
     optimization := {| opt_fuel := fuelPriority f;
                        opt_time := timePriority f;
                        opt_safety := safetyPriority f |};
     quantumEnhanced := isQuantumMode |}.

(** Updates of single [useState] cells and calls of [toast]. *)
Definition setLoading (b : bool) (st : App) : App :=
  {| route := route st; telemetry := telemetry st;
     isQuantumMode := isQuantumMode st; loading := b; form := form st;
     entries := entries st; toasts := toasts st |}.

Definition toast (t : Toast) (st : App) : App :=
  {| route := route st; telemetry := telemetry st;
     isQuantumMode := isQuantumMode st; loading := loading st;
     form := form st; entries := entries st; toasts := toasts st ++ [t] |}.

(** [generateRoute], once the two-second timer has fired; the form and the
    mode are the ones captured when the button was pressed.  The callback
    [onRouteGenerated] is a prop of the component and answers [None] when it
    throws; nothing else in the [try] block can throw.  [catch] reports the
    failure in a toast and [finally] clears [loading]. *)
Definition generateRoute (onRouteGenerated : Route -> App -> option App)
           (st : App) : App :=
  let st1 := setLoading true st in
  let st2 :=
    match onRouteGenerated (buildRoute (form st1) (isQuantumMode st1)) st1 with
    | Some st' => st'
    | None =>
        toast {| kind := Error; message := "Failed to generate route";
                 description := None |} st1
    end in
  setLoading false st2.

End RouteControls.

(** ** TelemetryPanel.tsx *)

Module TelemetryPanel.

Local Open Scope Z_scope.

Definition digit (d : Z) : string :=
  String (Ascii.ascii_of_nat (48 + Z.to_nat d)) EmptyString.

(** The text of a two-decimal reading, from its hundredths (not negative). *)
Definition showFixed2 (h : Z) : string :=
  (DecimalString.NilZero.string_of_int (Z.to_int (h / 100))
   ++ "." ++ digit (h mod 100 / 10) ++ digit (h mod 10))%string.

(** The object [data] of the interval callback, from the clock reading and
    the five results of [Math.random()], in source order. *)
Definition makeData (now : string) (r1 r2 r3 r4 r5 : Q) : TelemetrySample :=
  {| timestamp := now;
     waveHeight := toFixed2 (r1 * 5 + 1);
     windSpeed := toFixed2 (r2 * 30 + 10);
     current := toFixed2 (r3 * 2);
     visibility := toFixed2 (r4 * 10 + 5);
     temperature := toFixed2 (r5 * 10 + 20) |}.

(** [parseFloat(data.waveHeight) > 4.5] *)
Definition highWave (data : TelemetrySample) : bool := 450 <? waveHeight data.

(** What the interval callback does with [data]: hand it to the parent, then
    alert on high waves. *)
Definition onSample (onTelemetryUpdate : TelemetrySample -> App -> App)
           (data : TelemetrySample) (st : App) : App :=
  let st1 := onTelemetryUpdate data st in
  if highWave data then
    RouteControls.toast
      {| kind := Warning; message := "High wave alert!";
         description :=
           Some ("Wave height: " ++ showFixed2 (waveHeight data) ++ "m")%string |}
      st1
  else st1.

(** One firing of the timer set up by [startSimulation]. *)
Definition tick (onTelemetryUpdate : TelemetrySample -> App -> App)
           (now : string) (r1 r2 r3 r4 r5 : Q) (st : App) : App :=
  onSample onTelemetryUpdate (makeData now r1 r2 r3 r4 r5) st.

End TelemetryPanel.

(** ** AuditLog.tsx *)

Module AuditLog.

(** The two entries the component starts with; [now] is the time of the
    first render. *)
Definition initialEntries (now : string) : list AuditEntry :=
  [ {| entry_id := 1; action := "Route Computed"; hash := "0x7a9d...";
       entry_timestamp := now; verified := true |};
    {| entry_id := 2; action := "Telemetry Updated"; hash := "0x4f2e...";
       entry_timestamp := now; verified := true |} ].

(** [verifyChain] shows a toast and reads nothing. *)
Definition verifyChain (st : App) : App :=
  RouteControls.toast
    {| kind := Success; message := "Audit chain verified";
       description := Some "All entries are cryptographically valid" |} st.

End AuditLog.

(** ** Index.tsx *)

Module Index.

Definition handleRouteGenerated (newRoute : Route) (st : App) : App :=
  {| route := Some newRoute; telemetry := telemetry st;
     isQuantumMode := isQuantumMode st; loading := loading st;
     form := form st; entries := entries st; toasts := toasts st |}.

(** [prev => [...prev.slice(-50), data]] *)
Definition appendSample {A : Type} (data : A) (prev : list A) : list A :=
  slice (-50) prev ++ [data].

Definition handleTelemetryUpdate (data : TelemetrySample) (st : App) : App :=
  {| route := route st; telemetry := appendSample data (telemetry st);
     isQuantumMode := isQuantumMode st; loading := loading st;
     form := form st; entries := entries st; toasts := toasts st |}.

(** The components as [Index] wires them. *)
Definition generateRoute : App -> App :=
  RouteControls.generateRoute (fun r st => Some (handleRouteGenerated r st)).

Definition pushTelemetry : TelemetrySample -> App -> App :=
  TelemetryPanel.onSample handleTelemetryUpdate.

Definition simulationTick : string -> Q -> Q -> Q -> Q -> Q -> App -> App :=
  TelemetryPanel.tick handleTelemetryUpdate.

(** The page as first rendered at time [now]. *)
Definition initial (now : string) : App :=
  {| route := None; telemetry := []; isQuantumMode := false;
     loading := false;
     form := {| startLat := Num 13.0827; startLon := Num 80.2707;
                destLat := Num 1.3521; destLon := Num 103.8198;
                fuelPriority := 50; timePriority := 30;
                safetyPriority := 20 |};
     entries := AuditLog.initialEntries now; toasts := [] |}.

End Index.

(** ** Header.tsx and the events of the page *)

Module Page.

(** [onQuantumToggle], the handler [Index] gives to [Header]. *)
Definition onQuantumToggle (st : App) : App :=
  {| route := route st; telemetry := telemetry st;
     isQuantumMode := negb (isQuantumMode st); loading := loading st;
     form := form st; entries := entries st; toasts := toasts st |}.

(** The [onChange] handlers of the four inputs and of the three sliders. *)
Inductive FormEdit : Type :=
| SetStartLat (v : number)
| SetStartLon (v : number)
| SetDestLat (v : number)
| SetDestLon (v : number)
| SetFuelPriority (v : Z)
| SetTimePriority (v : Z)
| SetSafetyPriority (v : Z).

Definition editForm (e : FormEdit) (f : Form) : Form :=
  match e with
  | SetStartLat v =>
      {| startLat := v; startLon := startLon f; destLat := destLat f;
         destLon := destLon f; fuelPriority := fuelPriority f;
         timePriority := timePriority f; safetyPriority := safetyPriority f |}
  | SetStartLon v =>
      {| startLat := startLat f; startLon := v; destLat := destLat f;
         destLon := destLon f; fuelPriority := fuelPriority f;
         timePriority := timePriority f; safetyPriority := safetyPriority f |}
  | SetDestLat v =>
      {| startLat := startLat f; startLon := startLon f; destLat := v;
         destLon := destLon f; fuelPriority := fuelPriority f;
         timePriority := timePriority f; safetyPriority := safetyPriority f |}
  | SetDestLon v =>
      {| startLat := startLat f; startLon := startLon f; destLat := destLat f;
         destLon := v; fuelPriority := fuelPriority f;
         timePriority := timePriority f; safetyPriority := safetyPriority f |}
  | SetFuelPriority v =>
      {| startLat := startLat f; startLon := startLon f; destLat := destLat f;
         destLon := destLon f; fuelPriority := v;
         timePriority := timePriority f; safetyPriority := safetyPriority f |}
  | SetTimePriority v =>
      {| startLat := startLat f; startLon := startLon f; destLat := destLat f;
         destLon := destLon f; fuelPriority := fuelPriority f;
         timePriority := v; safetyPriority := safetyPriority f |}
  | SetSafetyPriority v =>
      {| startLat := startLat f; startLon := startLon f; destLat := destLat f;
         destLon := destLon f; fuelPriority := fuelPriority f;
         timePriority := timePriority f; safetyPriority := v |}
  end.

Definition onChange (e : FormEdit) (st : App) : App :=
  {| route := route st; telemetry := telemetry st;
     isQuantumMode := isQuantumMode st; loading := loading st;
     form := editForm e (form st); entries := entries st;
     toasts := toasts st |}.

(** What can happen to the page: the buttons, the switch, the inputs, and a
    firing of the telemetry timer with its clock reading and five draws. *)
Inductive Event : Type :=
| GenerateRoute
| VerifyChain
| QuantumToggle
| Change (e : FormEdit)
| Tick (now : string) (r1 r2 r3 r4 r5 : Q).

Definition step (st : App) (ev : Event) : App :=
  match ev with
  | GenerateRoute => Index.generateRoute st
  | VerifyChain => AuditLog.verifyChain st
  | QuantumToggle => onQuantumToggle st
  | Change e => onChange e st
  | Tick now r1 r2 r3 r4 r5 => Index.simulationTick now r1 r2 r3 r4 r5 st
  end.

Definition run (evs : list Event) (st : App) : App := fold_left step evs st.

(** A state between two events: nothing is being computed, the telemetry
    window is not overfull, no failure was reported, and a route on display
    has the shape [generateRoute] gives it. *)
Definition settled (st : App) : Prop :=
  loading st = false
  /\ (List.length (telemetry st) <= 51)%nat
  /\ Forall (fun t => kind t <> Error) (toasts st)
  /\ forall r, route st = Some r ->
       List.length (path r) = 21%nat /\ eta r = "48 hrs".

End Page.

(** ** TelemetryPanel.tsx: the simulation button *)

Module Simulation.

(** The two [useState] cells of the panel, the interval timers alive in the
    browser, the next timer handle, and the toasts shown. *)
Record Panel : Type := mkPanel {
  isSimulating : bool;
  intervalId : option nat;
  timers : list nat;
  nextTimer : nat;
  notices : list Toast
}.

(** A freshly mounted panel; timer handles start at 1. *)
Definition mounted : Panel :=
  {| isSimulating := false; intervalId := None; timers := [];
     nextTimer := 1; notices := [] |}.

Definition startSimulation (p : Panel) : Panel :=
  let id := nextTimer p in
  {| isSimulating := true;
     intervalId := Some id;
     timers := timers p ++ [id];
     nextTimer := S id;
     notices := notices p
                ++ [ {| kind := Success;
                        message := "Telemetry simulation started";
                        description := None |} ] |}.

(** [clearInterval(id)] *)
Definition clearInterval (id : nat) (ts : list nat) : list nat :=
  filter (fun t => negb (Nat.eqb t id)) ts.

(** [if (intervalId)] holds for a handle other than [null] and [0]. *)
Definition stopSimulation (p : Panel) : Panel :=
  let cleared :=
    match intervalId p with
    | Some id => negb (Nat.eqb id 0)
    | None => false
    end in
  {| isSimulating := false;
     intervalId := if cleared then None else intervalId p;
     timers := match intervalId p with
               | Some id => if cleared then clearInterval id (timers p)
                            else timers p
               | None => timers p
               end;
     nextTimer := nextTimer p;
     notices := notices p
                ++ [ {| kind := Info;
                        message := "Telemetry simulation stopped";
                        description := None |} ] |}.

(** [onClick={isSimulating ? stopSimulation : startSimulation}] *)
Definition onClick (p : Panel) : Panel :=
  if isSimulating p then stopSimulation p else startSimulation p.

Fixpoint clicks (n : nat) (p : Panel) : Panel :=
  match n with
  | O => p
  | S n' => clicks n' (onClick p)
  end.

(** A panel between two presses: while simulating, the handle kept is that
    of the one timer alive; otherwise no handle is kept and no timer is
    alive. *)
Definition steady (p : Panel) : Prop :=
  (0 < nextTimer p)%nat
  /\ if isSimulating p
     then exists id, intervalId p = Some id /\ timers p = [id]
                     /\ (0 < id < nextTimer p)%nat
     else intervalId p = None /\ timers p = [].

End Simulation.

(** ** MapView.tsx *)

Module MapView.

(** What the component puts on the map. *)
Inductive Layer : Type :=
| Polyline (latlngs : list waypoint) (color : string)
| Marker (latlng : option waypoint) (popup : string)
| Ship (latlng : option waypoint).

(** The map with its layers under their handles, the two refs of the
    component, the progress cell and the toasts shown.  The view of the map
    (zoom, bounds) is not modelled. *)
Record Map : Type := mkMap {
  layers : list (nat * Layer);
  nextLayer : nat;
  routeLayerRef : option nat;
  shipMarkerRef : option nat;
  animationProgress : Q;
  shown : list Toast
}.

Definition empty : Map :=
  {| layers := []; nextLayer := 0; routeLayerRef := None;
     shipMarkerRef := None; animationProgress := 0; shown := [] |}.

(** [layer.addTo(map)]; the new handle is [nextLayer m]. *)
Definition addLayer (l : Layer) (m : Map) : Map :=
  {| layers := layers m ++ [(nextLayer m, l)];
     nextLayer := S (nextLayer m);
     routeLayerRef := routeLayerRef m; shipMarkerRef := shipMarkerRef m;
     animationProgress := animationProgress m; shown := shown m |}.

(** [map.removeLayer(layer)] *)
Definition removeLayer (id : nat) (m : Map) : Map :=
  {| layers := filter (fun il => negb (Nat.eqb (fst il) id)) (layers m);
     nextLayer := nextLayer m;
     routeLayerRef := routeLayerRef m; shipMarkerRef := shipMarkerRef m;
     animationProgress := animationProgress m; shown := shown m |}.

Definition setRouteLayerRef (r : option nat) (m : Map) : Map :=
  {| layers := layers m; nextLayer := nextLayer m;
     routeLayerRef := r; shipMarkerRef := shipMarkerRef m;
     animationProgress := animationProgress m; shown := shown m |}.

Definition setShipMarkerRef (r : option nat) (m : Map) : Map :=
  {| layers := layers m; nextLayer := nextLayer m;
     routeLayerRef := routeLayerRef m; shipMarkerRef := r;
     animationProgress := animationProgress m; shown := shown m |}.

Definition setAnimationProgress (q : Q) (m : Map) : Map :=
  {| layers := layers m; nextLayer := nextLayer m;
     routeLayerRef := routeLayerRef m; shipMarkerRef := shipMarkerRef m;
     animationProgress := q; shown := shown m |}.

Definition toast (t : Toast) (m : Map) : Map :=
  {| layers := layers m; nextLayer := nextLayer m;
     routeLayerRef := routeLayerRef m; shipMarkerRef := shipMarkerRef m;
     animationProgress := animationProgress m; shown := shown m ++ [t] |}.

(** A marker moved to [p]; a line has no position to set. *)
Definition moveTo (p : option waypoint) (l : Layer) : Layer :=
  match l with
  | Ship _ => Ship p
  | Marker _ t => Marker p t
  | Polyline latlngs color => Polyline latlngs color
  end.

(** [marker.setLatLng(p)] on the layer under handle [id]. *)
Definition setLatLng (id : nat) (p : option waypoint) (m : Map) : Map :=
  {| layers := map (fun il => if Nat.eqb (fst il) id
                              then (fst il, moveTo p (snd il))
                              else il) (layers m);
     nextLayer := nextLayer m;
     routeLayerRef := routeLayerRef m; shipMarkerRef := shipMarkerRef m;
     animationProgress := animationProgress m; shown := shown m |}.

(** The effect on [[route, isQuantumMode]]: replace the line, add the two
    port markers, announce the route. *)
Definition routeEffect (r : option Route) (isQuantumMode : bool) (m : Map)
  : Map :=
  match r with
  | None => m
  | Some r =>
      let m1 := match routeLayerRef m with
                | Some id => removeLayer id m
                | None => m
                end in
      let id := nextLayer m1 in
      let m2 := addLayer (Polyline (path r)
                            (if isQuantumMode then "#00ffff" else "#00bfff"))
                         m1 in
      let m3 := setRouteLayerRef (Some id) m2 in
      let m4 :=
        if (0 <? List.length (path r))%nat then
          addLayer (Marker (nth_error (path r) (List.length (path r) - 1))
                           "Destination Port")
            (addLayer (Marker (nth_error (path r) 0) "Start Port") m3)
        else m3 in
      toast {| kind := Success; message := "Route generated successfully!";
               description := None |} m4
  end.

(** The effect on [[route]], up to the first [setTimeout]: put the ship at
    the head of the path.  It answers the map and whether an animation was
    scheduled. *)
Definition shipEffect (r : option Route) (m : Map) : Map * bool :=
  match r with
  | None => (m, false)
  | Some r =>
      if (List.length (path r) <? 2)%nat then (m, false)
      else
        let m1 := match shipMarkerRef m with
                  | Some id => removeLayer id m
                  | None => m
                  end in
        let id := nextLayer m1 in
        let m2 := addLayer (Ship (nth_error (path r) 0)) m1 in
        (setShipMarkerRef (Some id) m2, true)
  end.

(** [frame / (totalFrames - 1)] *)
Definition progressOf (frame totalFrames : nat) : Q :=
  Z.of_nat frame # Pos.of_nat (totalFrames - 1).

(** One call of [animate], with the local [frame] passed along.  [None]
    when the call schedules no further one. *)
Definition animate (pth : list waypoint) (fm : nat * Map)
  : option (nat * Map) :=
  let (frame, m) := fm in
  let totalFrames := List.length pth in
  if (frame <? totalFrames - 1)%nat then
    let frame' := S frame in
    let m1 := setAnimationProgress (progressOf frame' totalFrames) m in
    let m2 := match shipMarkerRef m1 with
              | Some id => setLatLng id (nth_error pth frame') m1
              | None => m1
              end in
    Some (frame', m2)
  else None.

(** The chain of [animate] calls, at most [fuel] of them. *)
Fixpoint animation (fuel : nat) (pth : list waypoint) (fm : nat * Map)
  : nat * Map :=
  match fuel with
  | O => fm
  | S fuel' =>
      match animate pth fm with
      | Some fm' => animation fuel' pth fm'
      | None => fm
      end
  end.

(** The percentage in the progress box, [Math.round(progress * 100)]; the
    box is shown for a route and a positive progress. *)
Definition percent (m : Map) : Z := Qfloor (animationProgress m * 100 + (1 # 2)).

(** [x || "N/A"] on a number: [NaN] and zero give the text. *)
Inductive Shown : Type :=
| Value (x : R)
| NA.

Definition orNA (x : number) : Shown :=
  match x with
  | NaN => NA
  | Num a => if Req_dec_T a 0 then NA else Value a
  end.

(** The same on a string: the empty string gives the text. *)
Definition orNAText (s : string) : string :=
  match s with
  | EmptyString => "N/A"
  | _ => s
  end.

(** The three cells of the route box. *)
Definition routeInfo (r : Route) : Shown * string * Shown :=
  (orNA (distance r), orNAText (eta r), orNA (fuel r)).

(** The layers of each sort on a map. *)
Definition isPolyline (il : nat * Layer) : bool :=
  match snd il with Polyline _ _ => true | _ => false end.
Definition isMarker (il : nat * Layer) : bool :=
  match snd il with Marker _ _ => true | _ => false end.
Definition isShip (il : nat * Layer) : bool :=
  match snd il with Ship _ => true | _ => false end.

(** What the component goes through: a render with a new route (both
    effects run), a render with a new mode only (the first effect runs), and
    a chain of [calls] calls of [animate] on a path. *)
Inductive Update : Type :=
| RouteChanged (r : option Route) (isQuantumMode : bool)
| ModeChanged (r : option Route) (isQuantumMode : bool)
| Animated (pth : list waypoint) (calls : nat).

Definition update (m : Map) (u : Update) : Map :=
  match u with
  | RouteChanged r q => fst (shipEffect r (routeEffect r q m))
  | ModeChanged r q => routeEffect r q m
  | Animated pth calls => snd (animation calls pth (0%nat, m))
  end.

Definition updates (us : list Update) (m : Map) : Map := fold_left update us m.

(** Leaflet takes a position that is a pair of numbers and throws on a
    [NaN] coordinate ([L.polyline], [setLatLng]); it also throws when asked
    to fit the bounds of an empty line.  A throw in an effect takes the page
    down.  The effects above describe the runs in which nothing is thrown:
    those on routes that are [drawable]. *)
Definition isLatLng (w : waypoint) : bool :=
  match w with
  | [Num _; Num _] => true
  | _ => false
  end.

Definition drawable (r : Route) : bool :=
  (0 <? List.length (path r))%nat && forallb isLatLng (path r).

Definition drawableUpdate (u : Update) : bool :=
  match u with
  | RouteChanged (Some r) _ => drawable r
  | ModeChanged (Some r) _ => drawable r
  | RouteChanged None _ => true
  | ModeChanged None _ => true
  | Animated pth _ => forallb isLatLng pth
  end.

(** A map in order: the handles in use are below the next one; the lines
    on the map are those under the handle in [routeLayerRef], the ships those
    under the handle in [shipMarkerRef], and there is at most one of each. *)
Definition tidy (m : Map) : Prop :=
  (forall il, In il (layers m) -> (fst il < nextLayer m)%nat)
  /\ (forall id, routeLayerRef m = Some id -> (id < nextLayer m)%nat)
  /\ (forall id, shipMarkerRef m = Some id -> (id < nextLayer m)%nat)
  /\ (forall il, In il (layers m) ->
       (isPolyline il = true <-> routeLayerRef m = Some (fst il)))
  /\ (forall il, In il (layers m) ->
       (isShip il = true <-> shipMarkerRef m = Some (fst il)))
  /\ (List.length (filter isPolyline (layers m)) <= 1)%nat
  /\ (List.length (filter isShip (layers m)) <= 1)%nat.

End MapView.

(** ** The haversine formula

    The textbook formula the distance function is compared with, on real
    numbers: [d = 2 R asin (sqrt a)], where [a] is the haversine of the
    central angle and [R] is 3440 nautical miles. *)

Module GeoMath.

Local Open Scope R_scope.

Definition rad (deg : R) : R := deg * PI / 180.

Definition hav (lat1 lon1 lat2 lon2 : R) : R :=
  sin (rad (lat2 - lat1) / 2) * sin (rad (lat2 - lat1) / 2)
  + cos (rad lat1) * cos (rad lat2)
    * sin (rad (lon2 - lon1) / 2) * sin (rad (lon2 - lon1) / 2).

Definition haversine (lat1 lon1 lat2 lon2 : R) : R :=
  3440 * (2 * asin (sqrt (hav lat1 lon1 lat2 lon2))).

End GeoMath.

(** ** Sample runs

    Concrete states and inputs used to exercise the model. *)

Module Sample.

Definition t0 : string := "2024-01-15T10:00:00.000Z".

(** The page after its first render, and after one route was generated
    from the default form (Chennai to Singapore). *)
Definition fresh : App := Index.initial t0.
Definition ready : App := Index.generateRoute fresh.

Definition sample_1030 : TelemetrySample :=
  {| timestamp := "2024-01-15T10:30:00.000Z"; waveHeight := 230;
     windSpeed := 1850; current := 120; visibility := 920;
     temperature := 2475 |}.

Definition sample_1029 : TelemetrySample :=
  {| timestamp := "2024-01-15T10:29:00.000Z"; waveHeight := 280;
     windSpeed := 2210; current := 95; visibility := 870;
     temperature := 2510 |}.

(** A reading of 5.20 m, above the alert level. *)
Definition sample_storm : TelemetrySample :=
  {| timestamp := "2024-01-15T10:48:00.000Z"; waveHeight := 520;
     windSpeed := 4380; current := 150; visibility := 310;
     temperature := 2240 |}.

(** [st] with other audit entries. *)
Definition withEntries (es : list AuditEntry) (st : App) : App :=
  {| route := route st; telemetry := telemetry st;
     isQuantumMode := isQuantumMode st; loading := loading st;
     form := form st; entries := es; toasts := toasts st |}.

(** [st] with another form. *)
Definition withForm (f : Form) (st : App) : App :=
  {| route := route st; telemetry := telemetry st;
     isQuantumMode := isQuantumMode st; loading := loading st;
     form := f; entries := entries st; toasts := toasts st |}.

(** The initial chain with the [hash] of the entry at index 1 overwritten. *)
Definition tamperedEntries : list AuditEntry :=
  [ {| entry_id := 1; action := "Route Computed"; hash := "0x7a9d...";
       entry_timestamp := t0; verified := true |};
    {| entry_id := 2; action := "Telemetry Updated"; hash := "0xffff...";
       entry_timestamp := t0; verified := true |} ].

(** A form with a latitude of 91 degrees. *)
Definition formLat91 : Form :=
  {| startLat := Num 91; startLon := Num 80.2707;
     destLat := Num 1.3521; destLon := Num 103.8198;
     fuelPriority := 50; timePriority := 30; safetyPriority := 20 |}.

(** A form whose latitude field does not parse. *)
Definition formNaN : Form :=
  {| startLat := NaN; startLon := Num 80.2707;
     destLat := Num 1.3521; destLon := Num 103.8198;
     fuelPriority := 50; timePriority := 30; safetyPriority := 20 |}.

(** All three sliders at zero. *)
Definition formZeroWeights : Form :=
  {| startLat := Num 13.0827; startLon := Num 80.2707;
     destLat := Num 1.3521; destLon := Num 103.8198;
     fuelPriority := 0; timePriority := 0; safetyPriority := 0 |}.

(** The default form; [Sample.fresh] holds it. *)
Definition formDefault : Form := form fresh.


End Sample.

(** A short route, to run the map on. *)
Module Demo.

Definition threePoints : Route :=
  {| path := [[Num 0; Num 0]; [Num 1; Num 2]; [Num 2; Num 4]];
     distance := Num 134; eta := "48 hrs"; fuel := Num 67;
     optimization := {| opt_fuel := 50; opt_time := 30; opt_safety := 20 |};
     quantumEnhanced := false |}.

End Demo.

(** * Properties *)

Local Open Scope list_scope.

(** ** Arrays *)

Section Arrays.

Context {A : Type}.

Lemma slice_last_50 (a : list A) :
  slice (-50) a = skipn (List.length a - 50) a.
Proof.
  unfold slice. cbn [Z.ltb Z.compare].
  f_equal. lia.
Qed.

Lemma slice_last_50_length (a : list A) :
  List.length (slice (-50) a) = Nat.min (List.length a) 50.
Proof.
  rewrite slice_last_50, length_skipn. lia.
Qed.

Lemma appendSample_length (data : A) (prev : list A) :
  List.length (Index.appendSample data prev)
  = S (Nat.min (List.length prev) 50).
Proof.
  unfold Index.appendSample.
  rewrite length_app, slice_last_50_length. cbn. lia.
Qed.

Lemma appendSample_last (data d : A) (prev : list A) :
  last (Index.appendSample data prev) d = data.
Proof.
  unfold Index.appendSample. apply last_last.
Qed.

End Arrays.

(** ** Telemetry *)

(** C10: an update keeps the last 50 samples of the previous list and puts
    the new sample after them, so the stored list never holds more than 51
    samples and its last element is the sample just pushed. *)
Theorem telemetry_window (data : TelemetrySample) (st : App) :
  let st' := Index.handleTelemetryUpdate data st in
  telemetry st'
  = skipn (List.length (telemetry st) - 50) (telemetry st) ++ [data]
  /\ (List.length (telemetry st') <= 51)%nat
  /\ (forall d, last (telemetry st') d = data).
Proof.
  cbn. split; [| split].
  - unfold Index.appendSample. now rewrite slice_last_50.
  - rewrite appendSample_length. lia.
  - intros d. apply appendSample_last.
Qed.

(** The bound is reached: a full window stays at 51 samples. *)
Lemma telemetry_window_full (data : TelemetrySample) (st : App) :
  (50 <= List.length (telemetry st))%nat ->
  List.length (telemetry (Index.handleTelemetryUpdate data st)) = 51%nat.
Proof.
  intros H. cbn. rewrite appendSample_length. lia.
Qed.

(** The bound holds along every run of updates. *)
Lemma telemetry_window_run (ds : list TelemetrySample) (st : App) :
  (List.length (telemetry st) <= 51)%nat ->
  (List.length
     (telemetry
        (fold_left (fun s d => Index.handleTelemetryUpdate d s) ds st))
   <= 51)%nat.
Proof.
  revert st. induction ds as [| d ds IH]; intros st Hst; cbn [fold_left].
  - exact Hst.
  - apply IH. cbn. rewrite appendSample_length. lia.
Qed.

(** What a push leaves alone. *)
Lemma pushTelemetry_frame (data : TelemetrySample) (st : App) :
  let st' := Index.pushTelemetry data st in
  route st' = route st /\ entries st' = entries st
  /\ loading st' = loading st /\ form st' = form st
  /\ isQuantumMode st' = isQuantumMode st
  /\ telemetry st' = Index.appendSample data (telemetry st).
Proof.
  unfold Index.pushTelemetry, TelemetryPanel.onSample.
  destruct (TelemetryPanel.highWave data); cbn; auto 10.
Qed.

(** A firing of the timer is a push of the sample it draws. *)
Lemma simulationTick_push (now : string) (r1 r2 r3 r4 r5 : Q) (st : App) :
  Index.simulationTick now r1 r2 r3 r4 r5 st
  = Index.pushTelemetry (TelemetryPanel.makeData now r1 r2 r3 r4 r5) st.
Proof. reflexivity. Qed.

(** A draw in [[0, 1)] gives a wave height from 1.00 to 6.00. *)
Lemma makeData_wave_range (now : string) (r1 r2 r3 r4 r5 : Q) :
  (0 <= r1)%Q -> (r1 < 1)%Q ->
  (100 <= waveHeight (TelemetryPanel.makeData now r1 r2 r3 r4 r5) <= 600)%Z.
Proof.
  intros H0 H1. cbn [TelemetryPanel.makeData waveHeight]. unfold toFixed2.
  split.
  - apply (Qfloor_resp_le 100). Lqa.lra.
  - apply (Qfloor_resp_le _ (600 + (1 # 2))). Lqa.lra.
Qed.

(** The draw 0.84 is printed as "5.20" and raises the alert. *)
Example tick_storm :
  let st := Index.simulationTick Sample.t0 0.84 0.5 0.5 0.5 0.5 Sample.fresh in
  option_map waveHeight (hd_error (telemetry st)) = Some 520%Z
  /\ option_map description (hd_error (toasts st))
     = Some (Some "Wave height: 5.20m"%string).
Proof. split; reflexivity. Qed.

(** C6, as the code has it: a pushed sample is recorded as the last element
    of the telemetry list whatever its time stamp is, and no push alters the
    audit entries. *)
Theorem push_always_recorded (data : TelemetrySample) (st : App) :
  let st' := Index.pushTelemetry data st in
  (forall d, last (telemetry st') d = data)
  /\ entries st' = entries st.
Proof.
  destruct (pushTelemetry_frame data st) as (_ & He & _ & _ & _ & Ht).
  cbn zeta. split; [| exact He].
  intros d. rewrite Ht. apply appendSample_last.
Qed.

(** C6 fails as stated: after the 10:30 sample, the older 10:29 sample is
    pushed and is recorded all the same. *)
Lemma out_of_order_push_recorded :
  let st := Index.pushTelemetry Sample.sample_1030 Sample.fresh in
  String.ltb (timestamp Sample.sample_1029) (timestamp Sample.sample_1030)
  = true
  /\ telemetry st = [Sample.sample_1030]
  /\ telemetry (Index.pushTelemetry Sample.sample_1029 st)
     = [Sample.sample_1030; Sample.sample_1029]
  /\ telemetry (Index.pushTelemetry Sample.sample_1029 st) <> telemetry st.
Proof.
  cbn. repeat split. discriminate.
Qed.

(** C3, as the code has it: a sample above 4.50 m is recorded and raises one
    "High wave alert!" toast; the route, the audit entries and the rest of
    the state stay as they were.  Nothing is cancelled, rebuilt or
    re-optimised and no audit entry is written. *)
Theorem high_wave_only_alerts (data : TelemetrySample) (st : App) :
  (450 < waveHeight data)%Z ->
  let st' := Index.pushTelemetry data st in
  telemetry st' = Index.appendSample data (telemetry st)
  /\ toasts st'
     = toasts st
       ++ [ {| kind := Warning; message := "High wave alert!";
               description :=
                 Some ("Wave height: "
                       ++ TelemetryPanel.showFixed2 (waveHeight data)
                       ++ "m")%string |} ]
  /\ route st' = route st
  /\ entries st' = entries st
  /\ loading st' = loading st.
Proof.
  intros H.
  unfold Index.pushTelemetry, TelemetryPanel.onSample, TelemetryPanel.highWave.
  apply Z.ltb_lt in H. rewrite H. cbn. auto.
Qed.

Lemma high_wave_only_alerts_witness :
  (450 < waveHeight Sample.sample_storm)%Z
  /\ entries (Index.pushTelemetry Sample.sample_storm Sample.ready)
     = entries Sample.ready.
Proof.
  split; [reflexivity |].
  apply (high_wave_only_alerts Sample.sample_storm Sample.ready).
  reflexivity.
Defined.

(** C3 fails as stated: with a route on display, a 5.20 m sample leaves the
    two initial audit entries as they are, so no "ReplanTriggered" and no
    "RouteComputed" entry follows, and the route is the one shown before. *)
Lemma storm_sample_logs_nothing :
  let st' := Index.pushTelemetry Sample.sample_storm Sample.ready in
  route Sample.ready <> None
  /\ loading Sample.ready = false
  /\ (450 < waveHeight Sample.sample_storm)%Z
  /\ route st' = route Sample.ready
  /\ ~ (exists e1 e2,
          entries st' = entries Sample.ready ++ [e1; e2]
          /\ action e1 = "ReplanTriggered"%string
          /\ action e2 = "RouteComputed"%string).
Proof.
  cbv zeta.
  destruct (pushTelemetry_frame Sample.sample_storm Sample.ready)
    as (Hr & He & _).
  split; [discriminate |].
  split; [reflexivity |].
  split; [reflexivity |].
  split; [exact Hr |].
  intros (e1 & e2 & H & _). rewrite He in H.
  apply (f_equal (@List.length _)) in H.
  rewrite length_app in H. cbn in H. lia.
Qed.

(** ** Audit log *)

(** C2, as the code has it: verifying announces "Audit chain verified" for
    every chain, be it empty, untouched or altered; it never reports a broken
    index and leaves the entries as they are. *)
Theorem verify_always_succeeds (st : App) :
  toasts (AuditLog.verifyChain st)
  = toasts st
    ++ [ {| kind := Success; message := "Audit chain verified";
            description := Some "All entries are cryptographically valid"%string |} ]
  /\ entries (AuditLog.verifyChain st) = entries st.
Proof.
  split; reflexivity.
Qed.

(** The outcome does not depend on the entries. *)
Lemma verify_ignores_entries (es : list AuditEntry) (st : App) :
  toasts (AuditLog.verifyChain (Sample.withEntries es st))
  = toasts (AuditLog.verifyChain st).
Proof. reflexivity. Qed.

(** C2 fails as stated: the chain whose entry 1 has an overwritten [hash]
    differs from the initial chain, and is announced as verified, with the
    very toast the initial chain gets. *)
Lemma tampered_chain_verified :
  let st := Sample.withEntries Sample.tamperedEntries Sample.fresh in
  entries st <> entries Sample.fresh
  /\ option_map hash (nth_error (entries st) 1)
     <> option_map hash (nth_error (entries Sample.fresh) 1)
  /\ toasts (AuditLog.verifyChain st)
     = [ {| kind := Success; message := "Audit chain verified";
            description := Some "All entries are cryptographically valid"%string |} ]
  /\ toasts (AuditLog.verifyChain st)
     = toasts (AuditLog.verifyChain Sample.fresh).
Proof.
  cbn. repeat split; discriminate.
Qed.

(** ** Route generation *)

(** The state [generateRoute] ends in: the new route is stored, [loading] is
    cleared and nothing else has changed; the [catch] branch is never taken. *)
Lemma generateRoute_result (st : App) :
  Index.generateRoute st
  = {| route := Some (RouteControls.buildRoute (form st) (isQuantumMode st));
       telemetry := telemetry st; isQuantumMode := isQuantumMode st;
       loading := false; form := form st; entries := entries st;
       toasts := toasts st |}.
Proof. reflexivity. Qed.

(** C4, as the code has it: the weights stored in the route are the three
    slider values as they stand, not normalised, and no triple is turned
    down: a route is produced and no error is shown for every triple, a
    zero-sum one included. *)
Theorem weights_stored_as_entered (st : App) :
  exists r,
    route (Index.generateRoute st) = Some r
    /\ opt_fuel (optimization r) = fuelPriority (form st)
    /\ opt_time (optimization r) = timePriority (form st)
    /\ opt_safety (optimization r) = safetyPriority (form st)
    /\ toasts (Index.generateRoute st) = toasts st.
Proof.
  rewrite generateRoute_result. eexists. cbn. repeat split.
Qed.

(** C4 fails as stated: the default sliders 50, 30, 20 reach the route
    unchanged and sum to 100, not to 1; and with all sliders at zero a
    route is still produced, without any error. *)
Lemma default_weights_sum_to_100 :
  (exists r,
      route Sample.ready = Some r
      /\ (opt_fuel (optimization r) + opt_time (optimization r)
          + opt_safety (optimization r) = 100)%Z
      /\ ~ (Rabs (IZR (opt_fuel (optimization r) + opt_time (optimization r)
                       + opt_safety (optimization r)) - 1) <= 1e-9)%R)
  /\ (let st := Index.generateRoute
                  (Sample.withForm Sample.formZeroWeights Sample.fresh) in
      route st <> None /\ toasts st = []).
Proof.
  split.
  - eexists. split; [reflexivity |]. split; [reflexivity |].
    change (~ (Rabs (100 - 1) <= 1e-9)%R).
    replace (100 - 1)%R with 99%R by lra.
    rewrite Rabs_pos_eq by lra.
    let p := eval vm_compute in (Z.pow_pos 10 9) in
    change (Z.pow_pos 10 9) with p.
    lra.
  - split; [discriminate | reflexivity].
Qed.

(** C5, as the code has it: the coordinates are not checked.  For every
    content of the form, [NaN] and out-of-range values included, a route is
    built from it and stored, and no error is reported. *)
Theorem coordinates_never_rejected (st : App) :
  let st' := Index.generateRoute st in
  route st' = Some (RouteControls.buildRoute (form st) (isQuantumMode st))
  /\ toasts st' = toasts st
  /\ loading st' = false.
Proof.
  rewrite generateRoute_result. cbn. repeat split.
Qed.

(** C5 fails as stated: a start latitude of 91 degrees is outside
    [[-90, 90]], and the request still yields a route and no error. *)
Lemma latitude_91_accepted :
  let st := Sample.withForm Sample.formLat91 Sample.fresh in
  startLat (form st) = Num 91
  /\ ~ (-90 <= 91 <= 90)%R
  /\ route st = None
  /\ route (Index.generateRoute st) <> None
  /\ toasts (Index.generateRoute st) = [].
Proof.
  cbv zeta. split; [reflexivity |]. split; [lra |].
  split; [reflexivity |]. split; [discriminate | reflexivity].
Qed.

(** The same with a field that does not parse: the route is produced and
    its distance is [NaN]. *)
Lemma nan_latitude_accepted :
  let st := Index.generateRoute (Sample.withForm Sample.formNaN Sample.fresh) in
  option_map distance (route st) = Some NaN /\ toasts st = [].
Proof.
  split; reflexivity.
Qed.

(** C8: the route is a function of the form and of the mode switch alone.
    Two runs from states that agree on these produce the same route,
    whatever else the states hold; no random source is consulted. *)
Theorem route_deterministic (st1 st2 : App) :
  form st1 = form st2 ->
  isQuantumMode st1 = isQuantumMode st2 ->
  route (Index.generateRoute st1) = route (Index.generateRoute st2).
Proof.
  intros Hf Hq. rewrite !generateRoute_result. cbn. now rewrite Hf, Hq.
Qed.

Lemma route_deterministic_witness :
  telemetry (Index.pushTelemetry Sample.sample_storm Sample.ready)
  <> telemetry Sample.fresh
  /\ route (Index.generateRoute Sample.fresh)
     = route (Index.generateRoute
                (Index.pushTelemetry Sample.sample_storm Sample.ready)).
Proof.
  split; [discriminate |].
  apply (route_deterministic Sample.fresh
           (Index.pushTelemetry Sample.sample_storm Sample.ready));
    reflexivity.
Defined.

(** Firings of the telemetry timer, whatever they draw, do not change the
    route the next run produces. *)
Lemma route_ignores_draws (now : string) (r1 r2 r3 r4 r5 : Q) (st : App) :
  route (Index.generateRoute (Index.simulationTick now r1 r2 r3 r4 r5 st))
  = route (Index.generateRoute st).
Proof.
  rewrite simulationTick_push, !generateRoute_result.
  destruct (pushTelemetry_frame (TelemetryPanel.makeData now r1 r2 r3 r4 r5) st)
    as (_ & _ & _ & Hf & Hq & _).
  cbn [route]. now rewrite Hf, Hq.
Qed.


(** ** Numbers *)

Section Numbers.

Local Open Scope R_scope.

Lemma div_num (a b : R) : b <> 0 -> JS.div (Num a) (Num b) = Num (a / b).
Proof.
  intros Hb. unfold JS.div.
  destruct (Req_dec_T b 0); [contradiction | reflexivity].
Qed.

Lemma sqrt_num (a : R) : 0 <= a -> Math_sqrt (Num a) = Num (sqrt a).
Proof.
  intros Ha. unfold Math_sqrt.
  destruct (Rlt_dec a 0); [lra | reflexivity].
Qed.

Lemma sqr_sin_bounds (x : R) : 0 <= sin x * sin x <= 1.
Proof. pose proof (sin2_cos2 x) as H. unfold Rsqr in H. nra. Qed.

Lemma sqr_cos_bounds (x : R) : 0 <= cos x * cos x <= 1.
Proof. pose proof (sin2_cos2 x) as H. unfold Rsqr in H. nra. Qed.

Lemma cos_cos_split (u v : R) :
  cos (u - v) * cos (u + v) = cos u * cos u - sin v * sin v.
Proof.
  rewrite cos_minus, cos_plus.
  pose proof (sin2_cos2 u) as Hu. pose proof (sin2_cos2 v) as Hv.
  unfold Rsqr in Hu, Hv. nra.
Qed.



Lemma atan2_sqrt_asin (a : R) :
  0 <= a <= 1 -> atan2 (sqrt a) (sqrt (1 - a)) = asin (sqrt a).
Proof.
  intros [H0 H1]. unfold atan2.
  destruct (Rlt_dec 0 (sqrt (1 - a))) as [Hp | Hn].
  - assert (a < 1).
    { destruct (Rle_lt_or_eq_dec _ _ H1) as [| E]; [assumption |].
      subst a. replace (1 - 1) with 0 in Hp by lra.
      rewrite sqrt_0 in Hp. lra. }
    rewrite asin_atan.
    + rewrite Rsqr_sqrt by assumption. reflexivity.
    + split.
      * pose proof (sqrt_pos a). lra.
      * rewrite <- sqrt_1. apply sqrt_lt_1; lra.
  - assert (a = 1).
    { destruct (Rle_lt_or_eq_dec _ _ H1) as [L | E]; [| assumption].
      exfalso. apply Hn. apply sqrt_lt_R0. lra. }
    subst a. replace (1 - 1) with 0 by lra. rewrite sqrt_0, sqrt_1.
    destruct (Rlt_dec 0 0); [lra |].
    destruct (Rlt_dec 0 1); [| lra].
    symmetry. apply asin_1.
Qed.

End Numbers.

(** ** The haversine of the central angle *)

Section Haversine.

Import GeoMath.
Local Open Scope R_scope.




(** [hav] is a mean of two squares, weighted by the longitude term. *)
Lemma hav_mix (la1 lo1 la2 lo2 : R) :
  let s := sin (rad (lo2 - lo1) / 2) * sin (rad (lo2 - lo1) / 2) in
  let p := sin (rad (la2 - la1) / 2) * sin (rad (la2 - la1) / 2) in
  let q := cos ((rad la1 + rad la2) / 2) * cos ((rad la1 + rad la2) / 2) in
  hav la1 lo1 la2 lo2 = (1 - s) * p + s * q.
Proof.
  cbv zeta. unfold hav.
  pose proof (cos_cos_split ((rad la1 + rad la2) / 2) (rad (la2 - la1) / 2))
    as H.
  replace ((rad la1 + rad la2) / 2 - rad (la2 - la1) / 2) with (rad la1) in H
    by (unfold rad; field).
  replace ((rad la1 + rad la2) / 2 + rad (la2 - la1) / 2) with (rad la2) in H
    by (unfold rad; field).
  nra.
Qed.

Lemma hav_bounds (la1 lo1 la2 lo2 : R) : 0 <= hav la1 lo1 la2 lo2 <= 1.
Proof.
  rewrite hav_mix. cbv zeta.
  pose proof (sqr_sin_bounds (rad (lo2 - lo1) / 2)).
  pose proof (sqr_sin_bounds (rad (la2 - la1) / 2)).
  pose proof (sqr_cos_bounds ((rad la1 + rad la2) / 2)).
  nra.
Qed.



End Haversine.

(** ** The distance function *)

Section Distance.

Import GeoMath.
Local Open Scope R_scope.


(** The distance on real coordinates, operation by operation. *)
Lemma calculateDistance_num (la1 lo1 la2 lo2 : R) :
  RouteControls.calculateDistance [Num la1; Num lo1] [Num la2; Num lo2]
  = Num (3440 * (2 * atan2 (sqrt (hav la1 lo1 la2 lo2))
                            (sqrt (1 - hav la1 lo1 la2 lo2)))).
Proof.
  unfold RouteControls.calculateDistance. cbn [get nth].
  unfold lit, Math_PI.
  cbn [JS.mul JS.sub JS.add lift2].
  rewrite !div_num by lra.
  cbn [Math_sin Math_cos lift1 JS.mul JS.add JS.sub lift2].
  fold (rad la1) (rad la2) (rad (la2 - la1)) (rad (lo2 - lo1)).
  fold (hav la1 lo1 la2 lo2).
  pose proof (hav_bounds la1 lo1 la2 lo2) as [H0 H1].
  rewrite !sqrt_num by lra.
  reflexivity.
Qed.

(** The code computes the haversine distance. *)
Lemma calculateDistance_haversine (la1 lo1 la2 lo2 : R) :
  RouteControls.calculateDistance [Num la1; Num lo1] [Num la2; Num lo2]
  = Num (haversine la1 lo1 la2 lo2).
Proof.
  rewrite calculateDistance_num, atan2_sqrt_asin by apply hav_bounds.
  reflexivity.
Qed.

(** Only the first two cells of each waypoint are read. *)
Lemma calculateDistance_reads (s d : waypoint) :
  RouteControls.calculateDistance s d
  = RouteControls.calculateDistance [get s 0; get s 1] [get d 0; get d 1].
Proof. reflexivity. Qed.

(** A [NaN] in any of the four cells makes the distance [NaN]. *)
Lemma calculateDistance_nan (x1 y1 x2 y2 : number) :
  x1 = NaN \/ y1 = NaN \/ x2 = NaN \/ y2 = NaN ->
  RouteControls.calculateDistance [x1; y1] [x2; y2] = NaN.
Proof.
  intros H.
  unfold RouteControls.calculateDistance, lit, Math_PI. cbn [get nth].
  destruct x1, y1, x2, y2;
    try (exfalso; destruct H as [H | [H | [H | H]]]; discriminate);
    cbn [JS.mul JS.sub JS.add lift2];
    rewrite ?div_num by lra;
    reflexivity.
Qed.



(** The distance shown for a route between real coordinates is the
    haversine distance, rounded. *)
Lemma buildRoute_distance (la lo la' lo' : R) (w1 w2 w3 : Z) (q : bool) :
  distance (RouteControls.buildRoute
              {| startLat := Num la; startLon := Num lo;
                 destLat := Num la'; destLon := Num lo';
                 fuelPriority := w1; timePriority := w2;
                 safetyPriority := w3 |} q)
  = Num (IZR (round (haversine la lo la' lo'))).
Proof.
  cbn [RouteControls.buildRoute distance startLat startLon destLat destLon].
  now rewrite calculateDistance_haversine.
Qed.

End Distance.




(** ** The curved path *)

Section CurvedPath.

Local Open Scope R_scope.

Lemma curveLoop_map (s d : waypoint) (n k i : nat) (p : list waypoint) :
  RouteControls.curveLoop s d n k i p
  = (p ++ map (RouteControls.curvePoint s d n) (seq i k))%list.
Proof.
  revert i p. induction k as [| k IH]; intros i p; cbn.
  - now rewrite app_nil_r.
  - rewrite IH, <- app_assoc. reflexivity.
Qed.

Lemma generateCurvedPath_map (s d : waypoint) (n : nat) :
  RouteControls.generateCurvedPath s d n
  = map (RouteControls.curvePoint s d n) (seq 0 (S n)).
Proof.
  unfold RouteControls.generateCurvedPath. now rewrite curveLoop_map.
Qed.

Lemma generateCurvedPath_length (s d : waypoint) (n : nat) :
  List.length (RouteControls.generateCurvedPath s d n) = S n.
Proof.
  now rewrite generateCurvedPath_map, length_map, length_seq.
Qed.

Lemma generateCurvedPath_first (s d : waypoint) (n : nat) :
  hd_error (RouteControls.generateCurvedPath s d n)
  = Some (RouteControls.curvePoint s d n 0).
Proof. rewrite generateCurvedPath_map. reflexivity. Qed.

Lemma generateCurvedPath_last (s d w : waypoint) (n : nat) :
  last (RouteControls.generateCurvedPath s d n) w
  = RouteControls.curvePoint s d n n.
Proof.
  rewrite generateCurvedPath_map, seq_S, map_app. cbn [map].
  apply last_last.
Qed.

(** At [t = 0] the sine term is 0 and the cosine term is 1. *)
Lemma curvePoint_start (la lo la' lo' : R) (n : nat) :
  (0 < n)%nat ->
  RouteControls.curvePoint [Num la; Num lo] [Num la'; Num lo'] n 0
  = [Num la; Num (lo + 1)].
Proof.
  intros Hn. unfold RouteControls.curvePoint, of_nat, lit, Math_PI.
  cbn [get nth].
  assert (INR n <> 0) as Hn0 by (apply not_0_INR; lia).
  rewrite div_num by assumption.
  cbn [JS.mul JS.sub JS.add lift2 Math_sin Math_cos lift1 INR].
  replace (0 / INR n) with 0 by (field; assumption).
  rewrite Rmult_0_l, sin_0, cos_0.
  f_equal; [| f_equal]; f_equal; ring.
Qed.

(** At [t = 1] the sine term is 0 and the cosine term is -1. *)
Lemma curvePoint_end (la lo la' lo' : R) (n : nat) :
  (0 < n)%nat ->
  RouteControls.curvePoint [Num la; Num lo] [Num la'; Num lo'] n n
  = [Num la'; Num (lo' - 1)].
Proof.
  intros Hn. unfold RouteControls.curvePoint, of_nat, lit, Math_PI.
  cbn [get nth].
  assert (INR n <> 0) as Hn0 by (apply not_0_INR; lia).
  rewrite div_num by assumption.
  cbn [JS.mul JS.sub JS.add lift2 Math_sin Math_cos lift1].
  replace (INR n / INR n) with 1 by (field; assumption).
  rewrite Rmult_1_l, sin_PI, cos_PI.
  f_equal; [| f_equal]; f_equal; ring.
Qed.

(** The path of every route built from real coordinates: 21 waypoints, the
    first one degree of longitude east of the start, the last one degree
    west of the destination. *)
Lemma buildRoute_endpoints (la lo la' lo' : R) (w1 w2 w3 : Z) (q : bool) :
  let r := RouteControls.buildRoute
             {| startLat := Num la; startLon := Num lo;
                destLat := Num la'; destLon := Num lo';
                fuelPriority := w1; timePriority := w2;
                safetyPriority := w3 |} q in
  List.length (path r) = 21%nat
  /\ hd_error (path r) = Some [Num la; Num (lo + 1)]
  /\ last (path r) [] = [Num la'; Num (lo' - 1)]
  /\ hd_error (path r) <> Some [Num la; Num lo]
  /\ last (path r) [] <> [Num la'; Num lo'].
Proof.
  cbv zeta. cbn [RouteControls.buildRoute path startLat startLon destLat
                 destLon].
  rewrite generateCurvedPath_length, generateCurvedPath_first,
    generateCurvedPath_last, curvePoint_start, curvePoint_end by lia.
  split; [reflexivity |]. split; [reflexivity |]. split; [reflexivity |].
  split; intros H; injection H as H; lra.
Qed.

End CurvedPath.

(** C1 is broken by the code: for the default form, Chennai to Singapore,
    the path starts at longitude 81.2707, not at the start 80.2707, and ends
    at longitude 102.8198, not at the destination 103.8198.  The latitudes
    are those requested. *)
Theorem default_path_misses_endpoints :
  exists r,
    route Sample.ready = Some r
    /\ hd_error (path r) = Some [Num 13.0827; Num (80.2707 + 1)]
    /\ last (path r) [] = [Num 1.3521; Num (103.8198 - 1)]
    /\ hd_error (path r) <> Some [startLat Sample.formDefault;
                                  startLon Sample.formDefault]
    /\ last (path r) [] <> [destLat Sample.formDefault;
                            destLon Sample.formDefault].
Proof.
  eexists. split; [reflexivity |].
  exact (proj2 (buildRoute_endpoints 13.0827 80.2707 1.3521 103.8198
                  50 30 20 false)).
Qed.

(** * Further properties of the code *)

(** ** The distance function, continued *)

Section DistanceRange.

Import GeoMath.
Local Open Scope R_scope.

(** The angle of a point of the closed first quadrant. *)
Lemma atan2_quadrant (y x : R) :
  0 <= y -> 0 <= x -> 0 <= atan2 y x <= PI / 2.
Proof.
  intros Hy Hx. pose proof PI_RGT_0 as HPI. unfold atan2.
  destruct (Rlt_dec 0 x) as [Hp | Hnp].
  - pose proof (atan_bound (y / x)) as [_ Hu].
    split; [| lra].
    destruct (Req_dec y 0) as [-> | Hy0].
    + unfold Rdiv. rewrite Rmult_0_l, atan_0. lra.
    + rewrite <- atan_0. left. apply atan_increasing.
      apply Rdiv_lt_0_compat; lra.
  - destruct (Rlt_dec x 0); [lra |].
    destruct (Rlt_dec 0 y); [lra |].
    destruct (Rlt_dec y 0); lra.
Qed.

Lemma haversine_bounds (la1 lo1 la2 lo2 : R) :
  0 <= haversine la1 lo1 la2 lo2 <= 3440 * PI.
Proof.
  unfold haversine.
  rewrite <- atan2_sqrt_asin by apply hav_bounds.
  pose proof (atan2_quadrant (sqrt (hav la1 lo1 la2 lo2))
                (sqrt (1 - hav la1 lo1 la2 lo2))
                (sqrt_pos _) (sqrt_pos _)).
  lra.
Qed.

Lemma PI_lt_31416 : PI < 31416 / 10000.
Proof.
  pose proof (PI_2_3_7_ineq 2) as [_ H].
  unfold PI_2_3_7_tg, tg_alt, Ratan_seq in H.
  cbn [sum_f_R0 Nat.mul Nat.add pow INR] in H.
  lra.
Qed.

Lemma haversine_le_10808 (la1 lo1 la2 lo2 : R) :
  0 <= haversine la1 lo1 la2 lo2 <= 10808.
Proof.
  pose proof (haversine_bounds la1 lo1 la2 lo2).
  pose proof PI_lt_31416. lra.
Qed.

(** [Math.round] stays within a half of its argument. *)
Lemma round_near (x : R) : x - / 2 < IZR (round x) <= x + / 2.
Proof.
  unfold round. destruct (base_Int_part (x + / 2)) as [H1 H2]. lra.
Qed.

Lemma round_range (x : R) (lo hi : Z) :
  IZR lo <= x <= IZR hi -> (lo <= round x <= hi)%Z.
Proof.
  intros [Hlo Hhi]. pose proof (round_near x) as [H1 H2].
  split.
  - assert (IZR (lo - 1) < IZR (round x)) as H
        by (rewrite minus_IZR; lra).
    apply lt_IZR in H. lia.
  - assert (IZR (round x) < IZR (hi + 1)) as H
        by (rewrite plus_IZR; lra).
    apply lt_IZR in H. lia.
Qed.


Lemma calculateDistance_cases (s d : waypoint) :
  RouteControls.calculateDistance s d = NaN
  \/ exists la1 lo1 la2 lo2,
      get s 0 = Num la1 /\ get s 1 = Num lo1
      /\ get d 0 = Num la2 /\ get d 1 = Num lo2
      /\ RouteControls.calculateDistance s d
         = Num (haversine la1 lo1 la2 lo2).
Proof.
  rewrite (calculateDistance_reads s d).
  destruct (get s 0) as [| la1]; [left; apply calculateDistance_nan; auto |].
  destruct (get s 1) as [| lo1]; [left; apply calculateDistance_nan; auto |].
  destruct (get d 0) as [| la2]; [left; apply calculateDistance_nan; auto |].
  destruct (get d 1) as [| lo2]; [left; apply calculateDistance_nan; auto |].
  right. exists la1, lo1, la2, lo2.
  repeat split. apply calculateDistance_haversine.
Qed.

(** Whatever the waypoints hold, the distance is [NaN] or a number from 0
    to 10808 nautical miles: it is never negative and never above half the
    circumference of the sphere, [3440 * PI]. *)
Theorem distance_nan_or_bounded (s d : waypoint) :
  RouteControls.calculateDistance s d = NaN
  \/ exists x,
      RouteControls.calculateDistance s d = Num x /\ 0 <= x <= 10808.
Proof.
  destruct (calculateDistance_cases s d)
    as [H | (la1 & lo1 & la2 & lo2 & _ & _ & _ & _ & H)]; [now left |].
  right. eexists. split; [exact H |]. apply haversine_le_10808.
Qed.


(** A [NaN] in one of the four cells read (a field that does not parse, a
    missing cell) makes the distance [NaN]. *)
Theorem distance_nan_propagates (s d : waypoint) :
  get s 0 = NaN \/ get s 1 = NaN \/ get d 0 = NaN \/ get d 1 = NaN ->
  RouteControls.calculateDistance s d = NaN.
Proof.
  intros H. rewrite calculateDistance_reads.
  now apply calculateDistance_nan.
Qed.

Lemma distance_nan_propagates_witness :
  RouteControls.calculateDistance [Num 13.0827] [Num 1.3521; Num 103.8198]
  = NaN.
Proof.
  apply (distance_nan_propagates [Num 13.0827] [Num 1.3521; Num 103.8198]).
  right. left. reflexivity.
Defined.







End DistanceRange.

(** ** The curved path, continued *)

Section CurvedPathShape.

Local Open Scope R_scope.

Lemma generateCurvedPath_nth (s d : waypoint) (n i : nat) :
  (i <= n)%nat ->
  nth_error (RouteControls.generateCurvedPath s d n) i
  = Some (RouteControls.curvePoint s d n i).
Proof.
  intros Hi. rewrite generateCurvedPath_map.
  rewrite nth_error_map.
  rewrite (nth_error_nth' _ 0%nat) by (rewrite length_seq; lia).
  rewrite seq_nth by lia. reflexivity.
Qed.

(** The waypoint at counter [i] on real coordinates. *)
Lemma curvePoint_num (la lo la' lo' : R) (n i : nat) :
  (0 < n)%nat ->
  RouteControls.curvePoint [Num la; Num lo] [Num la'; Num lo'] n i
  = [Num (la + (la' - la) * (INR i / INR n) + sin (INR i / INR n * PI) * 2);
     Num (lo + (lo' - lo) * (INR i / INR n) + cos (INR i / INR n * PI) * 1)].
Proof.
  intros Hn. unfold RouteControls.curvePoint, of_nat, lit, Math_PI.
  cbn [get nth].
  rewrite div_num by (apply not_0_INR; lia).
  reflexivity.
Qed.

(** The path has [points + 1] waypoints, each a pair, whatever the
    arguments are. *)
Theorem curved_path_shape (s d : waypoint) (n : nat) :
  List.length (RouteControls.generateCurvedPath s d n) = S n
  /\ Forall (fun w => List.length w = 2%nat)
            (RouteControls.generateCurvedPath s d n).
Proof.
  split; [apply generateCurvedPath_length |].
  rewrite generateCurvedPath_map. apply Forall_forall.
  intros w Hw. apply in_map_iff in Hw. destruct Hw as (i & <- & _).
  reflexivity.
Qed.

(** With [points = 0] the only waypoint is [[NaN, NaN]]: the parameter [t]
    is [0 / 0]. *)
Theorem curved_path_no_points (s d : waypoint) :
  RouteControls.generateCurvedPath s d 0 = [[NaN; NaN]].
Proof.
  rewrite generateCurvedPath_map. cbn [seq map].
  unfold RouteControls.curvePoint, of_nat. cbn [INR].
  unfold JS.div. destruct (Req_dec_T 0 0) as [_ | H]; [| contradiction].
  cbn [JS.mul lift2 Math_sin Math_cos lift1 Math_PI].
  destruct (get s 0), (get d 0), (get s 1), (get d 1); reflexivity.
Qed.

(** The two offsets of a waypoint from the straight line, on exact reals. *)
Lemma curve_offsets (n i : nat) :
  (0 < n)%nat -> (i <= n)%nat ->
  0 <= sin (INR i / INR n * PI) * 2 <= 2
  /\ -1 <= cos (INR i / INR n * PI) * 1 <= 1.
Proof.
  intros Hn Hi. split.
  - pose proof (SIN_bound (INR i / INR n * PI)) as [_ Hu].
    assert (0 <= sin (INR i / INR n * PI)); [| lra].
    pose proof PI_RGT_0 as HPI.
    assert (0 < INR n) as Hn0 by (apply lt_0_INR; lia).
    assert (0 <= INR i) as Hi0 by apply pos_INR.
    assert (INR i <= INR n) as Hin by (apply le_INR; lia).
    assert (0 <= INR i / INR n <= 1) as [Ht0 Ht1].
    { split.
      - apply Rmult_le_pos; [assumption |].
        left. now apply Rinv_0_lt_compat.
      - apply (Rmult_le_reg_r (INR n)); [assumption |].
        unfold Rdiv. rewrite Rmult_assoc, Rinv_l by lra. lra. }
    apply sin_ge_0; nra.
  - pose proof (COS_bound (INR i / INR n * PI)). lra.
Qed.

(** Between coordinates in range every waypoint lies beside the straight
    line from start to destination: at counter [i] its latitude is that of
    the line at [t = i / points] plus an offset between 0 and 2, its
    longitude that of the line plus an offset between -1 and 1, each up to a
    millionth of a degree. *)
Theorem curved_path_near_line (la lo la' lo' : R) (n i : nat) :
  -90 <= la <= 90 -> -180 <= lo <= 180 ->
  -90 <= la' <= 90 -> -180 <= lo' <= 180 ->
  (0 < n)%nat -> (i <= n)%nat ->
  exists x y,
    nth_error
      (RouteControls.generateCurvedPath [Num la; Num lo] [Num la'; Num lo'] n)
      i
    = Some [Num x; Num y]
    /\ - (1 / 1000000) <= x - (la + (la' - la) * (INR i / INR n))
       <= 2 + 1 / 1000000
    /\ -1 - 1 / 1000000 <= y - (lo + (lo' - lo) * (INR i / INR n))
       <= 1 + 1 / 1000000.
Proof.
  intros _ _ _ _ Hn Hi.
  destruct (curve_offsets n i Hn Hi) as [Hs Hc].
  do 2 eexists. split.
  - rewrite generateCurvedPath_nth by assumption.
    now rewrite curvePoint_num.
  - split; lra.
Qed.

Lemma curved_path_near_line_witness :
  exists x y,
    nth_error
      (RouteControls.generateCurvedPath [Num 0; Num 0] [Num 10; Num 20] 20) 5
    = Some [Num x; Num y]
    /\ - (1 / 1000000) <= x - (0 + (10 - 0) * (INR 5 / INR 20))
       <= 2 + 1 / 1000000
    /\ -1 - 1 / 1000000 <= y - (0 + (20 - 0) * (INR 5 / INR 20))
       <= 1 + 1 / 1000000.
Proof.
  apply (curved_path_near_line 0 0 10 20 20 5); try lra; lia.
Defined.

(** With an even number of steps, the middle waypoint is two degrees north
    of the middle of the straight line, at its longitude, each up to a
    millionth of a degree, for coordinates in range. *)
Theorem curved_path_middle_near (la lo la' lo' : R) (m : nat) :
  -90 <= la <= 90 -> -180 <= lo <= 180 ->
  -90 <= la' <= 90 -> -180 <= lo' <= 180 ->
  (0 < m)%nat ->
  exists x y,
    nth_error
      (RouteControls.generateCurvedPath [Num la; Num lo] [Num la'; Num lo']
         (2 * m))
      m
    = Some [Num x; Num y]
    /\ Rabs (x - ((la + la') / 2 + 2)) <= 1 / 1000000
    /\ Rabs (y - (lo + lo') / 2) <= 1 / 1000000.
Proof.
  intros _ _ _ _ Hm.
  do 2 eexists. split.
  - rewrite generateCurvedPath_nth, curvePoint_num by lia. reflexivity.
  - assert (INR m <> 0) as Hm0 by (apply not_0_INR; lia).
    replace (INR m / INR (2 * m)) with (/ 2)
      by (rewrite mult_INR; cbn [INR]; field; assumption).
    replace (/ 2 * PI) with (PI / 2) by field.
    rewrite sin_PI2, cos_PI2.
    split; apply Rabs_le; lra.
Qed.

Lemma curved_path_middle_near_witness :
  exists x y,
    nth_error
      (RouteControls.generateCurvedPath [Num 0; Num 0] [Num 10; Num 20]
         (2 * 10))
      10
    = Some [Num x; Num y]
    /\ Rabs (x - ((0 + 10) / 2 + 2)) <= 1 / 1000000
    /\ Rabs (y - (0 + 20) / 2) <= 1 / 1000000.
Proof.
  apply (curved_path_middle_near 0 0 10 20 10); try lra; lia.
Defined.

End CurvedPathShape.

(** ** The telemetry simulation, continued *)

Section Simulated.

Local Open Scope Z_scope.

Lemma toFixed2_bounds (x : Q) (lo hi : Z) :
  (inject_Z lo <= x)%Q -> (x < inject_Z hi)%Q ->
  lo * 100 <= toFixed2 x <= hi * 100.
Proof.
  intros Hlo Hhi. unfold toFixed2. split.
  - rewrite <- (Qfloor_Z (lo * 100)). apply Qfloor_resp_le.
    rewrite inject_Z_mult. change (inject_Z 100) with 100%Q. Lqa.lra.
  - pose proof (Qfloor_le (x * 100 + (1 # 2))) as Hf.
    assert (inject_Z (Qfloor (x * 100 + (1 # 2))) < inject_Z (hi * 100 + 1))%Q
      as H.
    { rewrite inject_Z_plus, inject_Z_mult.
      change (inject_Z 100) with 100%Q. change (inject_Z 1) with 1%Q.
      Lqa.lra. }
    rewrite <- Zlt_Qlt in H. lia.
Qed.

(** Draws in [[0, 1)] give readings in fixed ranges: waves 1.00 to 6.00 m,
    wind 10.00 to 40.00 kt, current 0.00 to 2.00 kt, visibility 5.00 to
    15.00 nm, temperature 20.00 to 30.00 degrees. *)
Theorem simulated_readings_ranges (now : string) (r1 r2 r3 r4 r5 : Q) :
  (0 <= r1 < 1)%Q -> (0 <= r2 < 1)%Q -> (0 <= r3 < 1)%Q ->
  (0 <= r4 < 1)%Q -> (0 <= r5 < 1)%Q ->
  let data := TelemetryPanel.makeData now r1 r2 r3 r4 r5 in
  100 <= waveHeight data <= 600
  /\ 1000 <= windSpeed data <= 4000
  /\ 0 <= current data <= 200
  /\ 500 <= visibility data <= 1500
  /\ 2000 <= temperature data <= 3000.
Proof.
  intros [A1 B1] [A2 B2] [A3 B3] [A4 B4] [A5 B5].
  cbn [TelemetryPanel.makeData waveHeight windSpeed current visibility
       temperature].
  repeat split.
  all: first
    [ apply (toFixed2_bounds _ 1 6)
    | apply (toFixed2_bounds _ 10 40)
    | apply (toFixed2_bounds _ 0 2)
    | apply (toFixed2_bounds _ 5 15)
    | apply (toFixed2_bounds _ 20 30) ].
  all: unfold inject_Z; Lqa.lra.
Qed.

Lemma simulated_readings_ranges_witness :
  let data := TelemetryPanel.makeData Sample.t0 0.84 0.25 0.5 0.1 0.999 in
  100 <= waveHeight data <= 600
  /\ 1000 <= windSpeed data <= 4000
  /\ 0 <= current data <= 200
  /\ 500 <= visibility data <= 1500
  /\ 2000 <= temperature data <= 3000.
Proof.
  apply (simulated_readings_ranges Sample.t0 0.84 0.25 0.5 0.1 0.999);
    split; Lqa.lra.
Defined.

(** A firing of the timer raises the alert exactly when its first draw is at
    least 0.701: then the wave height is printed as 4.51 or more. *)
Theorem alert_iff_draw (now : string) (r1 r2 r3 r4 r5 : Q) :
  TelemetryPanel.highWave (TelemetryPanel.makeData now r1 r2 r3 r4 r5) = true
  <-> (701 # 1000 <= r1)%Q.
Proof.
  unfold TelemetryPanel.highWave.
  cbn [TelemetryPanel.makeData waveHeight]. unfold toFixed2.
  rewrite Z.ltb_lt. split.
  - intros H.
    pose proof (Qfloor_le ((r1 * 5 + 1) * 100 + (1 # 2))) as Hf.
    assert (inject_Z 451 <= inject_Z (Qfloor ((r1 * 5 + 1) * 100 + (1 # 2))))%Q
      as Hi by (rewrite <- Zle_Qle; lia).
    change (inject_Z 451) with 451%Q in Hi. Lqa.lra.
  - intros H.
    assert (Qfloor (inject_Z 451) <= Qfloor ((r1 * 5 + 1) * 100 + (1 # 2)))
      as Hf.
    { apply Qfloor_resp_le. change (inject_Z 451) with 451%Q. Lqa.lra. }
    rewrite Qfloor_Z in Hf. lia.
Qed.

End Simulated.

(** ** Runs of telemetry pushes *)

Section PushRuns.

Lemma appendSample_lastn {A : Type} (d : A) (l : list A) :
  Index.appendSample d l
  = skipn (List.length (l ++ [d]) - 51) (l ++ [d]).
Proof.
  unfold Index.appendSample.
  rewrite slice_last_50, length_app, skipn_app. cbn [List.length].
  replace (List.length l + 1 - 51)%nat with (List.length l - 50)%nat by lia.
  replace (List.length l - 50 - List.length l)%nat with 0%nat by lia.
  reflexivity.
Qed.

(** The telemetry list is a sliding window: after any run of pushes it
    holds the 51 most recent samples, in the order of arrival (all of them
    while there are fewer). *)
Theorem telemetry_is_last_51 (ds : list TelemetrySample) (st : App) :
  (List.length (telemetry st) <= 51)%nat ->
  telemetry (fold_left (fun s d => Index.pushTelemetry d s) ds st)
  = skipn (List.length (telemetry st ++ ds) - 51) (telemetry st ++ ds).
Proof.
  intros Hst. induction ds as [| d ds IH] using rev_ind.
  - cbn [fold_left]. rewrite app_nil_r.
    replace (List.length (telemetry st) - 51)%nat with 0%nat by lia.
    reflexivity.
  - rewrite fold_left_app. cbn [fold_left].
    destruct (pushTelemetry_frame d
                (fold_left (fun s d => Index.pushTelemetry d s) ds st))
      as (_ & _ & _ & _ & _ & Ht).
    cbv zeta in Ht. rewrite Ht, IH, appendSample_lastn.
    rewrite app_assoc.
    set (M := telemetry st ++ ds).
    rewrite !length_app, length_skipn. cbn [List.length].
    rewrite !skipn_app, length_skipn, skipn_skipn.
    f_equal; [f_equal; lia |].
    f_equal. lia.
Qed.

Lemma telemetry_is_last_51_witness :
  telemetry (fold_left (fun s d => Index.pushTelemetry d s)
               [Sample.sample_1029; Sample.sample_1030] Sample.fresh)
  = skipn (List.length (telemetry Sample.fresh
                        ++ [Sample.sample_1029; Sample.sample_1030]) - 51)
          (telemetry Sample.fresh ++ [Sample.sample_1029; Sample.sample_1030]).
Proof.
  apply (telemetry_is_last_51 [Sample.sample_1029; Sample.sample_1030]
           Sample.fresh).
  cbn. lia.
Defined.

(** Over a run of pushes the toasts grow by one "High wave alert!" per
    sample above 4.50 m, in the order of arrival, and by nothing else. *)
Theorem one_alert_per_high_wave (ds : list TelemetrySample) (st : App) :
  toasts (fold_left (fun s d => Index.pushTelemetry d s) ds st)
  = toasts st
    ++ map (fun d =>
              {| kind := Warning; message := "High wave alert!";
                 description :=
                   Some ("Wave height: "
                         ++ TelemetryPanel.showFixed2 (waveHeight d)
                         ++ "m")%string |})
           (filter TelemetryPanel.highWave ds).
Proof.
  revert st. induction ds as [| d ds IH]; intros st; cbn [fold_left filter].
  - cbn. now rewrite app_nil_r.
  - rewrite IH.
    unfold Index.pushTelemetry, TelemetryPanel.onSample.
    destruct (TelemetryPanel.highWave d); cbn [map].
    + cbn [RouteControls.toast toasts]. now rewrite <- app_assoc.
    + reflexivity.
Qed.

End PushRuns.

(** ** The page as a whole *)

Section PageRuns.

Lemma step_entries (st : App) (ev : Page.Event) :
  entries (Page.step st ev) = entries st.
Proof.
  destruct ev as [| | | e | now r1 r2 r3 r4 r5]; cbn [Page.step];
    try reflexivity.
  rewrite simulationTick_push.
  apply (pushTelemetry_frame (TelemetryPanel.makeData now r1 r2 r3 r4 r5) st).
Qed.

(** The audit log is never written: whatever happens on the page (routes
    generated, telemetry recorded, alerts raised, chains verified), the
    entries stay the ones the log started with. *)
Theorem audit_log_never_written (evs : list Page.Event) (st : App) :
  entries (Page.run evs st) = entries st.
Proof.
  unfold Page.run. revert st.
  induction evs as [| ev evs IH]; intros st; cbn [fold_left].
  - reflexivity.
  - now rewrite IH, step_entries.
Qed.

Lemma settled_step (st : App) (ev : Page.Event) :
  Page.settled st -> Page.settled (Page.step st ev).
Proof.
  intros (Hl & Ht & Hk & Hr).
  destruct ev as [| | | e | now r1 r2 r3 r4 r5]; cbn [Page.step].
  - rewrite generateRoute_result. repeat split; try assumption.
    + cbn [route] in H. injection H as <-.
      cbn [RouteControls.buildRoute path]. apply generateCurvedPath_length.
    + cbn [route] in H. injection H as <-. reflexivity.
  - split; [exact Hl |]. split; [exact Ht |]. split; [| exact Hr].
    cbn [AuditLog.verifyChain RouteControls.toast toasts].
    apply Forall_app. split; [assumption |].
    constructor; [discriminate | constructor].
  - split; [exact Hl |]. split; [exact Ht |]. split; [exact Hk | exact Hr].
  - split; [exact Hl |]. split; [exact Ht |]. split; [exact Hk | exact Hr].
  - rewrite simulationTick_push.
    set (d := TelemetryPanel.makeData now r1 r2 r3 r4 r5).
    destruct (pushTelemetry_frame d st) as (Er & _ & El & _ & _ & Et).
    cbv zeta in Er, El, Et.
    split; [now rewrite El |].
    split; [rewrite Et, appendSample_length; lia |].
    split; [| now rewrite Er].
    unfold Index.pushTelemetry, TelemetryPanel.onSample.
    destruct (TelemetryPanel.highWave d); [| exact Hk].
    cbn [RouteControls.toast toasts].
    apply Forall_app. split; [exact Hk |].
    constructor; [discriminate | constructor].
Qed.

(** From the first render on, after every sequence of events, each handler
    having run to its end: the button is released ([loading] is false), at
    most 51 samples are stored, no error toast was ever shown, and a route
    on display has 21 waypoints and the ETA "48 hrs". *)
Theorem page_invariants (now : string) (evs : list Page.Event) :
  let st := Page.run evs (Index.initial now) in
  loading st = false
  /\ (List.length (telemetry st) <= 51)%nat
  /\ Forall (fun t => kind t <> Error) (toasts st)
  /\ forall r, route st = Some r ->
       List.length (path r) = 21%nat /\ eta r = "48 hrs"%string.
Proof.
  cbv zeta. change (Page.settled (Page.run evs (Index.initial now))).
  assert (Page.settled (Index.initial now)) as H0.
  { repeat split; cbn; try lia; try constructor; discriminate. }
  unfold Page.run. revert H0. generalize (Index.initial now) as st.
  induction evs as [| ev evs IH]; intros st Hst; cbn [fold_left].
  - exact Hst.
  - apply IH, settled_step, Hst.
Qed.

(** The mode switch does not reach the computation: the route generated
    after a toggle equals the one generated before it in path, distance,
    ETA, fuel and weights, and differs in its mode flag only; and a second
    toggle gives the state back. *)
Theorem quantum_mode_only_sets_flag (st : App) :
  Page.onQuantumToggle (Page.onQuantumToggle st) = st
  /\ exists r r',
      route (Index.generateRoute st) = Some r
      /\ route (Index.generateRoute (Page.onQuantumToggle st)) = Some r'
      /\ path r' = path r /\ distance r' = distance r /\ eta r' = eta r
      /\ fuel r' = fuel r /\ optimization r' = optimization r
      /\ quantumEnhanced r' = negb (quantumEnhanced r).
Proof.
  split.
  - destruct st as [r t q l f e ts]. unfold Page.onQuantumToggle. cbn.
    now rewrite negb_involutive.
  - rewrite !generateRoute_result. do 2 eexists.
    split; [reflexivity |]. split; [reflexivity |]. cbn. repeat split.
Qed.

End PageRuns.

(** ** The simulation button *)

Section SimulationButton.

Import Simulation.

Lemma steady_onClick (p : Panel) :
  steady p ->
  steady (onClick p)
  /\ isSimulating (onClick p) = negb (isSimulating p)
  /\ List.length (notices (onClick p)) = S (List.length (notices p)).
Proof.
  unfold steady, onClick. intros [Hn H].
  destruct (isSimulating p) eqn:E.
  - destruct H as (id & Hi & Ht & Hid).
    unfold stopSimulation. rewrite Hi, Ht. cbn.
    assert (Nat.eqb id 0 = false) as -> by (apply Nat.eqb_neq; lia).
    cbn. rewrite Nat.eqb_refl. cbn.
    rewrite length_app. cbn. repeat split; try lia.
  - destruct H as [Hi Ht]. unfold startSimulation. cbn. rewrite Ht.
    rewrite length_app. cbn. repeat split; try lia.
    exists (nextTimer p). repeat split; lia.
Qed.

Lemma steady_clicks (n : nat) (p : Panel) :
  steady p ->
  steady (clicks n p)
  /\ isSimulating (clicks n p) = xorb (Nat.odd n) (isSimulating p)
  /\ List.length (notices (clicks n p)) = (n + List.length (notices p))%nat.
Proof.
  revert p. induction n as [| n IH]; intros p Hp.
  - cbn [clicks Nat.odd]. split; [exact Hp |]. split; [| reflexivity].
    now destruct (isSimulating p).
  - cbn [clicks].
    destruct (steady_onClick p Hp) as (Hs & Hb & Hl).
    destruct (IH _ Hs) as (Hs' & Hb' & Hl').
    split; [exact Hs' |]. split.
    + rewrite Hb', Hb, Nat.odd_succ, <- Nat.negb_odd.
      destruct (Nat.odd n), (isSimulating p); reflexivity.
    + rewrite Hl', Hl. lia.
Qed.

(** Pressing the button [n] times from a fresh panel: the simulation runs
    exactly when [n] is odd, one interval timer is alive then and none
    otherwise (the handle kept in [intervalId] is the one alive), and each
    press showed one toast. *)
Theorem simulation_button (n : nat) :
  let p := clicks n mounted in
  isSimulating p = Nat.odd n
  /\ timers p = match intervalId p with Some id => [id] | None => [] end
  /\ List.length (timers p) = (if Nat.odd n then 1 else 0)%nat
  /\ List.length (notices p) = n.
Proof.
  cbv zeta.
  assert (steady mounted) as H0 by (unfold steady; cbn; auto).
  destruct (steady_clicks n mounted H0) as ((_ & Hs) & Hb & Hl).
  cbn [mounted isSimulating notices List.length] in Hb, Hl.
  rewrite xorb_false_r in Hb. rewrite Nat.add_0_r in Hl.
  rewrite Hb in Hs. split; [exact Hb |].
  destruct (Nat.odd n).
  - destruct Hs as (id & -> & -> & _). repeat split. exact Hl.
  - destruct Hs as (-> & ->). repeat split. exact Hl.
Qed.

End SimulationButton.

(** ** The map *)

Section MapLayers.

Import MapView.

Lemma filter_filter_negb {A : Type} (f g : A -> bool) (l : list A) :
  (forall x, In x l -> g x = true -> f x = false) ->
  filter g (filter f l) = [] .
Proof.
  intros H. induction l as [| x l IH]; [reflexivity |].
  cbn [filter]. destruct (f x) eqn:Ef.
  - cbn [filter]. destruct (g x) eqn:Eg.
    + rewrite (H x (or_introl eq_refl) Eg) in Ef. discriminate.
    + apply IH. intros y Hy. apply H. now right.
  - apply IH. intros y Hy. apply H. now right.
Qed.

Lemma filter_filter_keep {A : Type} (f g : A -> bool) (l : list A) :
  (forall x, In x l -> g x = true -> f x = true) ->
  filter g (filter f l) = filter g l.
Proof.
  intros H. induction l as [| x l IH]; [reflexivity |].
  cbn [filter]. destruct (f x) eqn:Ef.
  - cbn [filter]. destruct (g x); [f_equal |]; apply IH;
      intros y Hy; apply H; now right.
  - destruct (g x) eqn:Eg.
    + rewrite (H x (or_introl eq_refl) Eg) in Ef. discriminate.
    + apply IH. intros y Hy. apply H. now right.
Qed.

Lemma filter_nil_forall {A : Type} (f : A -> bool) (l : list A) :
  filter f l = [] -> forall x, In x l -> f x = false.
Proof.
  intros H x Hin. destruct (f x) eqn:E; [| reflexivity].
  assert (In x (filter f l)) as Hf by (apply filter_In; auto).
  rewrite H in Hf. destruct Hf.
Qed.

Lemma forall_filter_nil {A : Type} (f : A -> bool) (l : list A) :
  (forall x, In x l -> f x = false) -> filter f l = [].
Proof.
  intros H. induction l as [| x l IH]; [reflexivity |].
  cbn [filter]. rewrite (H x (or_introl eq_refl)).
  apply IH. intros y Hy. apply H. now right.
Qed.

(** Taking off the layer under a handle that only layers of sort [f] carry
    removes all layers of sort [f] and keeps the layers of another sort. *)
Lemma removeLayer_sort (f g : nat * Layer -> bool) (m : Map) (id : nat) :
  (forall il, In il (layers m) -> (f il = true <-> id = fst il)) ->
  (forall il, g il = true -> f il = false) ->
  filter f (layers (removeLayer id m)) = []
  /\ filter g (layers (removeLayer id m)) = filter g (layers m)
  /\ forall il, In il (layers (removeLayer id m)) -> In il (layers m).
Proof.
  intros Hf Hg. cbn [removeLayer layers].
  assert (forall il, In il (layers m) -> Nat.eqb (fst il) id = f il) as Hid.
  { intros il Hin. specialize (Hf il Hin).
    destruct (f il) eqn:E.
    - apply Nat.eqb_eq. symmetry. now apply Hf.
    - apply Nat.eqb_neq. intros Heq. destruct Hf as [_ Hf].
      symmetry in Heq. specialize (Hf Heq). discriminate. }
  split; [| split].
  - apply filter_filter_negb. intros il Hin Hp. now rewrite Hid, Hp.
  - apply filter_filter_keep. intros il Hin Hk. rewrite Hid by assumption.
    now rewrite (Hg il Hk).
  - intros il Hin. apply filter_In in Hin. apply Hin.
Qed.

Lemma line_removed (m : Map) :
  tidy m ->
  let m1 := match routeLayerRef m with
            | Some id => removeLayer id m
            | None => m
            end in
  filter isPolyline (layers m1) = []
  /\ filter isMarker (layers m1) = filter isMarker (layers m)
  /\ filter isShip (layers m1) = filter isShip (layers m)
  /\ (forall il, In il (layers m1) -> In il (layers m))
  /\ nextLayer m1 = nextLayer m /\ shipMarkerRef m1 = shipMarkerRef m
  /\ shown m1 = shown m /\ animationProgress m1 = animationProgress m.
Proof.
  intros (_ & _ & _ & T4 & _). cbv zeta.
  destruct (routeLayerRef m) as [id |] eqn:Href.
  - assert (forall il, In il (layers m) ->
              (isPolyline il = true <-> id = fst il)) as Hf.
    { intros il Hin. rewrite (T4 il Hin). split; congruence. }
    destruct (removeLayer_sort isPolyline isMarker m id Hf) as (H1 & H2 & H3).
    { intros [i []]; cbn; congruence. }
    destruct (removeLayer_sort isPolyline isShip m id Hf) as (_ & H4 & _).
    { intros [i []]; cbn; congruence. }
    repeat split; assumption.
  - repeat split; try reflexivity; [| auto].
    apply forall_filter_nil. intros il Hin.
    destruct (isPolyline il) eqn:E; [| reflexivity].
    apply (T4 il Hin) in E. discriminate.
Qed.

Lemma ship_removed (m : Map) :
  tidy m ->
  let m1 := match shipMarkerRef m with
            | Some id => removeLayer id m
            | None => m
            end in
  filter isShip (layers m1) = []
  /\ filter isMarker (layers m1) = filter isMarker (layers m)
  /\ filter isPolyline (layers m1) = filter isPolyline (layers m)
  /\ (forall il, In il (layers m1) -> In il (layers m))
  /\ nextLayer m1 = nextLayer m /\ routeLayerRef m1 = routeLayerRef m
  /\ shown m1 = shown m /\ animationProgress m1 = animationProgress m.
Proof.
  intros (_ & _ & _ & _ & T5 & _). cbv zeta.
  destruct (shipMarkerRef m) as [id |] eqn:Href.
  - assert (forall il, In il (layers m) ->
              (isShip il = true <-> id = fst il)) as Hf.
    { intros il Hin. rewrite (T5 il Hin). split; congruence. }
    destruct (removeLayer_sort isShip isMarker m id Hf) as (H1 & H2 & H3).
    { intros [i []]; cbn; congruence. }
    destruct (removeLayer_sort isShip isPolyline m id Hf) as (_ & H4 & _).
    { intros [i []]; cbn; congruence. }
    repeat split; assumption.
  - repeat split; try reflexivity; [| auto].
    apply forall_filter_nil. intros il Hin.
    destruct (isShip il) eqn:E; [| reflexivity].
    apply (T5 il Hin) in E. discriminate.
Qed.

Lemma filter_filter_length {A : Type} (f g : A -> bool) (l : list A) :
  (List.length (filter g (filter f l)) <= List.length (filter g l))%nat.
Proof.
  induction l as [| x l IH]; [apply le_n |].
  cbn [filter]. destruct (f x); cbn [filter]; destruct (g x); cbn; lia.
Qed.

(** The steps of the effects keep the map tidy. *)
Lemma tidy_removeLayer (id : nat) (m : Map) : tidy m -> tidy (removeLayer id m).
Proof.
  intros (T1 & T2 & T3 & T4 & T5 & T6 & T7).
  unfold tidy. cbn [removeLayer layers nextLayer routeLayerRef shipMarkerRef].
  split; [| split; [| split; [| split; [| split; [| split]]]]].
  - intros il Hin. apply filter_In in Hin. now apply T1.
  - exact T2.
  - exact T3.
  - intros il Hin. apply filter_In in Hin. now apply T4.
  - intros il Hin. apply filter_In in Hin. now apply T5.
  - etransitivity; [apply filter_filter_length | exact T6].
  - etransitivity; [apply filter_filter_length | exact T7].
Qed.

Lemma tidy_toast (t : Toast) (m : Map) : tidy m -> tidy (toast t m).
Proof. intros H. exact H. Qed.

Lemma tidy_addMarker (p : option waypoint) (t : string) (m : Map) :
  tidy m -> tidy (addLayer (Marker p t) m).
Proof.
  intros (T1 & T2 & T3 & T4 & T5 & T6 & T7).
  unfold tidy. cbn [addLayer layers nextLayer routeLayerRef shipMarkerRef].
  rewrite !filter_app. cbn [filter isPolyline isShip snd].
  rewrite !app_nil_r.
  split; [| split; [| split; [| split; [| split; [| split]]]]].
  - intros il Hin. apply in_app_iff in Hin.
    destruct Hin as [Hin | [<- | []]]; [apply T1 in Hin; lia | cbn; lia].
  - intros id H. apply T2 in H. lia.
  - intros id H. apply T3 in H. lia.
  - intros il Hin. apply in_app_iff in Hin.
    destruct Hin as [Hin | [<- | []]]; [now apply T4 |].
    cbn. split; [discriminate |]. intros H. apply T2 in H. lia.
  - intros il Hin. apply in_app_iff in Hin.
    destruct Hin as [Hin | [<- | []]]; [now apply T5 |].
    cbn. split; [discriminate |]. intros H. apply T3 in H. lia.
  - exact T6.
  - exact T7.
Qed.

Lemma tidy_addLine (l : list waypoint) (c : string) (m : Map) :
  tidy m -> filter isPolyline (layers m) = [] ->
  tidy (setRouteLayerRef (Some (nextLayer m)) (addLayer (Polyline l c) m)).
Proof.
  intros (T1 & T2 & T3 & T4 & T5 & T6 & T7) Hnone.
  pose proof (filter_nil_forall _ _ Hnone) as Hnl.
  unfold tidy.
  cbn [setRouteLayerRef addLayer layers nextLayer routeLayerRef
       shipMarkerRef].
  rewrite !filter_app, Hnone. cbn [filter isPolyline isShip snd].
  rewrite !app_nil_r.
  split; [| split; [| split; [| split; [| split; [| split]]]]].
  - intros il Hin. apply in_app_iff in Hin.
    destruct Hin as [Hin | [<- | []]]; [apply T1 in Hin; lia | cbn; lia].
  - intros id H. injection H as <-. lia.
  - intros id H. apply T3 in H. lia.
  - intros il Hin. apply in_app_iff in Hin.
    destruct Hin as [Hin | [<- | []]].
    + split.
      * intros H. rewrite (Hnl il Hin) in H. discriminate.
      * intros H. injection H as H. apply T1 in Hin. lia.
    + cbn. split; reflexivity.
  - intros il Hin. apply in_app_iff in Hin.
    destruct Hin as [Hin | [<- | []]]; [now apply T5 |].
    cbn. split; [discriminate |]. intros H. apply T3 in H. lia.
  - cbn. lia.
  - exact T7.
Qed.

Lemma tidy_addShip (p : option waypoint) (m : Map) :
  tidy m -> filter isShip (layers m) = [] ->
  tidy (setShipMarkerRef (Some (nextLayer m)) (addLayer (Ship p) m)).
Proof.
  intros (T1 & T2 & T3 & T4 & T5 & T6 & T7) Hnone.
  pose proof (filter_nil_forall _ _ Hnone) as Hnl.
  unfold tidy.
  cbn [setShipMarkerRef addLayer layers nextLayer routeLayerRef
       shipMarkerRef].
  rewrite !filter_app, Hnone. cbn [filter isPolyline isShip snd].
  rewrite !app_nil_r.
  split; [| split; [| split; [| split; [| split; [| split]]]]].
  - intros il Hin. apply in_app_iff in Hin.
    destruct Hin as [Hin | [<- | []]]; [apply T1 in Hin; lia | cbn; lia].
  - intros id H. apply T2 in H. lia.
  - intros id H. injection H as <-. lia.
  - intros il Hin. apply in_app_iff in Hin.
    destruct Hin as [Hin | [<- | []]]; [now apply T4 |].
    cbn. split; [discriminate |]. intros H. apply T2 in H. lia.
  - intros il Hin. apply in_app_iff in Hin.
    destruct Hin as [Hin | [<- | []]].
    + split.
      * intros H. rewrite (Hnl il Hin) in H. discriminate.
      * intros H. injection H as H. apply T1 in Hin. lia.
    + cbn. split; reflexivity.
  - exact T6.
  - cbn. lia.
Qed.

(** What the route effect does to a tidy map. *)
Lemma routeEffect_spec (r : Route) (q : bool) (m : Map) :
  tidy m ->
  let m' := routeEffect (Some r) q m in
  let n := nextLayer m in
  tidy m'
  /\ filter isPolyline (layers m')
     = [(n, Polyline (path r) (if q then "#00ffff" else "#00bfff")%string)]
  /\ filter isMarker (layers m')
     = filter isMarker (layers m)
       ++ (if (0 <? List.length (path r))%nat
           then [(S n, Marker (nth_error (path r) 0) "Start Port");
                 (S (S n),
                  Marker (nth_error (path r) (List.length (path r) - 1))
                         "Destination Port")]
           else [])
  /\ filter isShip (layers m') = filter isShip (layers m)
  /\ shown m'
     = shown m ++ [ {| kind := Success;
                       message := "Route generated successfully!";
                       description := None |} ]
  /\ shipMarkerRef m' = shipMarkerRef m
  /\ animationProgress m' = animationProgress m.
Proof.
  intros Ht.
  pose proof (line_removed m Ht) as (R1 & R2 & R3 & R4 & R5 & R6 & R7 & R8).
  cbv zeta in *. unfold routeEffect.
  assert (tidy (match routeLayerRef m with
                | Some id => removeLayer id m
                | None => m
                end)) as Ht1.
  { destruct (routeLayerRef m); [now apply tidy_removeLayer | exact Ht]. }
  set (m1 := match routeLayerRef m with
             | Some id => removeLayer id m
             | None => m
             end) in *.
  pose proof (tidy_addLine (path r) (if q then "#00ffff" else "#00bfff")%string
                m1 Ht1 R1) as Ht3.
  split.
  - apply tidy_toast.
    destruct (0 <? List.length (path r))%nat; [| exact Ht3].
    now do 2 apply tidy_addMarker.
  - destruct (0 <? List.length (path r))%nat;
      cbn [toast addLayer setRouteLayerRef layers nextLayer routeLayerRef
           shipMarkerRef animationProgress shown];
      rewrite ?filter_app, ?R1, ?R2, ?R3, ?R5, ?R6, ?R7, ?R8;
      cbn [filter isPolyline isMarker isShip snd app];
      rewrite ?app_nil_r, <- ?app_assoc; cbn [app];
      repeat split; reflexivity.
Qed.

(** What the ship effect does to a tidy map, for a path of two waypoints or
    more. *)
Lemma shipEffect_spec (r : Route) (m : Map) :
  tidy m -> (2 <= List.length (path r))%nat ->
  let m' := fst (shipEffect (Some r) m) in
  snd (shipEffect (Some r) m) = true
  /\ tidy m'
  /\ shipMarkerRef m' = Some (nextLayer m)
  /\ filter isShip (layers m') = [(nextLayer m, Ship (nth_error (path r) 0))]
  /\ filter isMarker (layers m') = filter isMarker (layers m)
  /\ filter isPolyline (layers m') = filter isPolyline (layers m)
  /\ shown m' = shown m.
Proof.
  intros Ht Hlen.
  pose proof (ship_removed m Ht) as (R1 & R2 & R3 & R4 & R5 & R6 & R7 & R8).
  cbv zeta in *. unfold shipEffect.
  assert ((List.length (path r) <? 2)%nat = false) as ->
      by (apply Nat.ltb_ge; lia).
  assert (tidy (match shipMarkerRef m with
                | Some id => removeLayer id m
                | None => m
                end)) as Ht1.
  { destruct (shipMarkerRef m); [now apply tidy_removeLayer | exact Ht]. }
  set (m1 := match shipMarkerRef m with
             | Some id => removeLayer id m
             | None => m
             end) in *.
  cbn [fst snd].
  split; [reflexivity |].
  split; [now apply tidy_addShip |].
  cbn [addLayer setShipMarkerRef layers nextLayer routeLayerRef
       shipMarkerRef animationProgress shown].
  rewrite ?filter_app, ?R1, ?R2, ?R3, ?R5, ?R6, ?R7, ?R8.
  cbn [filter isPolyline isMarker isShip snd app].
  rewrite ?app_nil_r. repeat split; reflexivity.
Qed.

Lemma tidy_shipEffect (r : option Route) (m : Map) :
  tidy m -> tidy (fst (shipEffect r m)).
Proof.
  intros Ht. destruct r as [r |]; [| exact Ht].
  destruct (Nat.ltb (List.length (path r)) 2) eqn:E.
  - unfold shipEffect. rewrite E. exact Ht.
  - apply shipEffect_spec; [exact Ht | apply Nat.ltb_ge in E; lia].
Qed.

Lemma tidy_routeEffect (r : option Route) (q : bool) (m : Map) :
  tidy m -> tidy (routeEffect r q m).
Proof.
  intros Ht. destruct r as [r |]; [| exact Ht].
  now apply routeEffect_spec.
Qed.

(** Moving a marker changes no handle and no sort of layer. *)
Lemma setLatLng_filter (f : nat * Layer -> bool) (id : nat)
      (p : option waypoint) (m : Map) :
  (forall i l, f (i, moveTo p l) = f (i, l)) ->
  filter f (layers (setLatLng id p m))
  = map (fun il => if Nat.eqb (fst il) id
                   then (fst il, moveTo p (snd il))
                   else il) (filter f (layers m)).
Proof.
  intros Hf. cbn [setLatLng layers].
  rewrite filter_map_swap. f_equal. apply filter_ext.
  intros [i l]. cbn [fst snd]. destruct (Nat.eqb i id); [apply Hf | reflexivity].
Qed.

Lemma tidy_setLatLng (id : nat) (p : option waypoint) (m : Map) :
  tidy m -> tidy (setLatLng id p m).
Proof.
  intros (T1 & T2 & T3 & T4 & T5 & T6 & T7).
  assert (forall il, In il (layers (setLatLng id p m)) ->
            exists il0, In il0 (layers m) /\ fst il = fst il0
                        /\ isPolyline il = isPolyline il0
                        /\ isShip il = isShip il0) as Hin.
  { intros il H. cbn [setLatLng layers] in H. apply in_map_iff in H.
    destruct H as ([i l] & <- & H). exists (i, l). split; [exact H |].
    cbn [fst snd]. destruct (Nat.eqb i id); [| auto].
    destruct l; auto. }
  unfold tidy.
  rewrite !setLatLng_filter, !length_map
    by (intros i l; destruct l; reflexivity).
  cbn [setLatLng nextLayer routeLayerRef shipMarkerRef].
  split; [| split; [| split; [| split; [| split; [| split]]]]];
    try assumption.
  - intros il H. destruct (Hin il H) as (il0 & H0 & -> & _). now apply T1.
  - intros il H. destruct (Hin il H) as (il0 & H0 & -> & -> & _).
    now apply T4.
  - intros il H. destruct (Hin il H) as (il0 & H0 & -> & _ & ->).
    now apply T5.
Qed.

(** One call of [animate] that goes on. *)
Lemma animate_spec (pth : list waypoint) (f id : nat) (p0 : option waypoint)
      (m : Map) :
  tidy m -> shipMarkerRef m = Some id ->
  filter isShip (layers m) = [(id, Ship p0)] ->
  (f < List.length pth - 1)%nat ->
  exists m',
    animate pth (f, m) = Some (S f, m')
    /\ tidy m' /\ shipMarkerRef m' = Some id
    /\ filter isShip (layers m') = [(id, Ship (nth_error pth (S f)))]
    /\ animationProgress m' = progressOf (S f) (List.length pth)
    /\ filter isMarker (layers m') = filter isMarker (layers m)
    /\ filter isPolyline (layers m') = filter isPolyline (layers m)
    /\ shown m' = shown m.
Proof.
  intros Ht Href Hship Hf.
  unfold animate. apply Nat.ltb_lt in Hf. rewrite Hf.
  cbn [setAnimationProgress shipMarkerRef]. rewrite Href.
  eexists. split; [reflexivity |].
  split; [apply tidy_setLatLng; exact Ht |].
  split; [exact Href |].
  rewrite !setLatLng_filter by (intros i l; destruct l; reflexivity).
  cbn [setAnimationProgress layers]. rewrite Hship.
  cbn [map fst snd]. rewrite Nat.eqb_refl.
  split; [reflexivity |]. split; [reflexivity |].
  split; [| split; [| reflexivity]].
  - destruct Ht as (_ & _ & _ & _ & T5 & _).
    rewrite <- (map_id (filter isMarker (layers m))) at 2.
    apply map_ext_in. intros [i l] Hin. apply filter_In in Hin.
    destruct Hin as [Hin Hm]. cbn [fst snd].
    destruct (Nat.eqb i id) eqn:E; [| reflexivity].
    apply Nat.eqb_eq in E. subst i.
    apply (T5 _ Hin) in Href. destruct l; discriminate.
  - rewrite <- (map_id (filter isPolyline (layers m))) at 2.
    apply map_ext_in. intros [i l] Hin. apply filter_In in Hin.
    destruct Hin as [_ Hm]. cbn [fst snd].
    destruct (Nat.eqb i id); [| reflexivity].
    destruct l; try discriminate. reflexivity.
Qed.

Lemma tidy_animate (pth : list waypoint) (f f' : nat) (m m' : Map) :
  tidy m -> animate pth (f, m) = Some (f', m') -> tidy m'.
Proof.
  intros Ht H. unfold animate in H.
  destruct (Nat.ltb f (List.length pth - 1)); [| discriminate].
  injection H as _ <-. cbn [setAnimationProgress shipMarkerRef].
  destruct (shipMarkerRef m); [apply tidy_setLatLng |]; exact Ht.
Qed.

Lemma tidy_animation (fuel : nat) (pth : list waypoint) (f : nat) (m : Map) :
  tidy m -> tidy (snd (animation fuel pth (f, m))).
Proof.
  revert f m. induction fuel as [| fuel IH]; intros f m Ht; [exact Ht |].
  cbn [animation]. destruct (animate pth (f, m)) as [[f' m'] |] eqn:E.
  - apply IH. eapply tidy_animate; eassumption.
  - exact Ht.
Qed.

Lemma tidy_updates (us : list Update) : tidy (updates us empty).
Proof.
  assert (tidy empty) as H0.
  { unfold tidy, empty. cbn.
    repeat split; try discriminate; try lia; intros il []. }
  unfold updates. revert H0. generalize empty as m.
  induction us as [| u us IH]; intros m Hm; [exact Hm |].
  cbn [fold_left]. apply IH. destruct u as [r q | r q | pth calls];
    cbn [update].
  - apply tidy_shipEffect, tidy_routeEffect, Hm.
  - apply tidy_routeEffect, Hm.
  - apply tidy_animation, Hm.
Qed.

End MapLayers.

(** ** The map after any sequence of renders *)

Section MapRuns.

Import MapView.

(** However the routes and the mode change and the ship is animated, the map
    carries at most one line and at most one ship; the line, if any, is
    the one [routeLayerRef] holds, the ship the one [shipMarkerRef] holds. *)
Theorem map_one_line_one_ship (us : list Update) :
  let m := updates us empty in
  (List.length (filter isPolyline (layers m)) <= 1)%nat
  /\ (List.length (filter isShip (layers m)) <= 1)%nat
  /\ (forall il, In il (layers m) ->
       (isPolyline il = true <-> routeLayerRef m = Some (fst il)))
  /\ (forall il, In il (layers m) ->
       (isShip il = true <-> shipMarkerRef m = Some (fst il))).
Proof.
  cbv zeta. destruct (tidy_updates us) as (_ & _ & _ & T4 & T5 & T6 & T7).
  auto.
Qed.

(** On a page that has drawn every route so far, each run of the route
    effect with a drawable route, also one caused by the mode switch alone,
    shows "Route generated successfully!", replaces the line by one in the
    colour of the mode, and puts two more port markers on the map: the
    markers set before all stay. *)
Theorem drawable_route_stacks_markers (us : list Update) (r : Route)
        (q : bool) :
  forallb drawableUpdate us = true ->
  drawable r = true ->
  let m := updates us empty in
  let m' := update m (ModeChanged (Some r) q) in
  shown m'
  = shown m ++ [ {| kind := Success;
                    message := "Route generated successfully!";
                    description := None |} ]
  /\ filter isPolyline (layers m')
     = [(nextLayer m,
         Polyline (path r) (if q then "#00ffff" else "#00bfff")%string)]
  /\ filter isMarker (layers m')
     = filter isMarker (layers m)
       ++ [(S (nextLayer m), Marker (nth_error (path r) 0) "Start Port");
           (S (S (nextLayer m)),
            Marker (nth_error (path r) (List.length (path r) - 1))
                   "Destination Port")]
  /\ filter isShip (layers m') = filter isShip (layers m).
Proof.
  intros _ Hr. cbv zeta. cbn [update].
  destruct (routeEffect_spec r q (updates us empty) (tidy_updates us))
    as (_ & H1 & H2 & H3 & H4 & _).
  unfold drawable in Hr. apply andb_prop in Hr. destruct Hr as [Hlen _].
  rewrite Hlen in H2. auto.
Qed.

Lemma drawable_route_stacks_markers_witness :
  let m := updates [RouteChanged (Some Demo.threePoints) false] empty in
  List.length (filter isMarker (layers m)) = 2%nat
  /\ List.length
       (filter isMarker
          (layers (update m (ModeChanged (Some Demo.threePoints) true))))
     = 4%nat.
Proof.
  cbv zeta. split; [reflexivity |].
  destruct (drawable_route_stacks_markers
              [RouteChanged (Some Demo.threePoints) false]
              Demo.threePoints true) as (_ & _ & H & _).
  - reflexivity.
  - reflexivity.
  - cbv zeta in H. rewrite H. reflexivity.
Defined.

Lemma progressOf_full (n : nat) :
  (2 <= n)%nat -> (progressOf (n - 1) n == 1)%Q.
Proof.
  intros Hn. unfold progressOf, Qeq. cbn [Qnum Qden].
  rewrite Z.mul_1_r, Z.mul_1_l.
  rewrite <- positive_nat_Z, Nat2Pos.id by lia. reflexivity.
Qed.

Lemma animation_stopped (fuel : nat) (pth : list waypoint) (f : nat) (m : Map) :
  ~ (f < List.length pth - 1)%nat -> animation fuel pth (f, m) = (f, m).
Proof.
  intros H. destruct fuel as [| fuel]; [reflexivity |].
  cbn [animation]. unfold animate.
  apply Nat.ltb_nlt in H. now rewrite H.
Qed.

Lemma animation_run (pth : list waypoint) (id : nat) (fuel : nat) :
  forall (f : nat) (m : Map) (p0 : option waypoint),
    tidy m -> shipMarkerRef m = Some id ->
    filter isShip (layers m) = [(id, Ship p0)] ->
    (f < List.length pth - 1)%nat ->
    (List.length pth - 1 <= f + fuel)%nat ->
    let fm := animation fuel pth (f, m) in
    fst fm = (List.length pth - 1)%nat
    /\ animationProgress (snd fm)
       = progressOf (List.length pth - 1) (List.length pth)
    /\ filter isShip (layers (snd fm))
       = [(id, Ship (nth_error pth (List.length pth - 1)))]
    /\ filter isMarker (layers (snd fm)) = filter isMarker (layers m)
    /\ filter isPolyline (layers (snd fm)) = filter isPolyline (layers m)
    /\ shown (snd fm) = shown m.
Proof.
  induction fuel as [| fuel IH]; intros f m p0 Ht Href Hship Hf Hfuel;
    [lia |].
  cbv zeta. cbn [animation].
  destruct (animate_spec pth f id p0 m Ht Href Hship Hf)
    as (m' & -> & Ht' & Href' & Hship' & Hprog & Hmk & Hpl & Hsh).
  destruct (Nat.eq_dec (S f) (List.length pth - 1)) as [E | E].
  - rewrite animation_stopped by lia. cbn [fst snd].
    rewrite <- E. auto 10.
  - destruct (IH (S f) m' _ Ht' Href' Hship') as (A & B & C & D & F & G);
      [lia | lia |].
    cbv zeta in *. rewrite D, F, G. auto 10.
Qed.

(** The ship runs the whole path and stops: on a page that has drawn every
    route so far, for a drawable route of two waypoints or more, after
    [length - 1] calls of [animate] (more calls change nothing) the next
    call schedules none, the one ship on the map is at the last waypoint of
    the path, where the "Destination Port" marker is, and the progress box
    reads 100. *)
Theorem ship_reaches_last_waypoint (us : list Update) (r : Route) (q : bool)
        (fuel : nat) :
  forallb drawableUpdate us = true ->
  drawable r = true ->
  (2 <= List.length (path r))%nat ->
  (List.length (path r) - 1 <= fuel)%nat ->
  let m := update (updates us empty) (RouteChanged (Some r) q) in
  let fm := animation fuel (path r) (0%nat, m) in
  fst fm = (List.length (path r) - 1)%nat
  /\ animate (path r) fm = None
  /\ (exists id,
        filter isShip (layers (snd fm))
        = [(id, Ship (nth_error (path r) (List.length (path r) - 1)))])
  /\ (exists id,
        In (id, Marker (nth_error (path r) (List.length (path r) - 1))
                       "Destination Port") (layers (snd fm)))
  /\ (animationProgress (snd fm) == 1)%Q
  /\ percent (snd fm) = 100%Z.
Proof.
  intros _ _ Hlen Hfuel. cbv zeta. cbn [update].
  pose proof (tidy_updates us) as Ht0.
  destruct (routeEffect_spec r q _ Ht0) as (Ht1 & _ & Hmk & _).
  cbv zeta in Ht1, Hmk.
  assert ((0 <? List.length (path r))%nat = true) as Hpos
      by (apply Nat.ltb_lt; lia).
  rewrite Hpos in Hmk.
  destruct (shipEffect_spec r _ Ht1 Hlen)
    as (_ & Ht2 & Href & Hship & Hmk2 & _).
  cbv zeta in Ht2, Href, Hship, Hmk2.
  destruct (animation_run (path r) _ fuel 0 _ _ Ht2 Href Hship)
    as (A & B & C & D & _); [lia | lia |].
  cbv zeta in A, B, C, D.
  set (fm := animation fuel (path r)
               (0%nat,
                fst (shipEffect (Some r)
                       (routeEffect (Some r) q (updates us empty)))))
    in *.
  split; [exact A |]. split.
  - destruct fm as [f mF]. cbn [fst] in A. subst f.
    unfold animate. now rewrite Nat.ltb_irrefl.
  - split; [eexists; exact C |]. split.
    + eexists. eapply (proj1 (filter_In isMarker _ _)).
      rewrite D, Hmk2, Hmk. apply in_or_app. right. right. left. reflexivity.
    + assert (animationProgress (snd fm) == 1)%Q as Hone
          by (rewrite B; now apply progressOf_full).
      split; [exact Hone |].
      unfold percent. rewrite Hone. reflexivity.
Qed.

Lemma ship_reaches_last_waypoint_witness :
  let m := update (updates [] empty)
             (RouteChanged (Some Demo.threePoints) false) in
  fst (animation 5 (path Demo.threePoints) (0%nat, m)) = 2%nat.
Proof.
  apply (ship_reaches_last_waypoint [] Demo.threePoints false 5);
    try reflexivity; cbn; lia.
Defined.

End MapRuns.

(** ** The route box and distances along a meridian *)

Section RouteBox.

Import GeoMath.
Local Open Scope R_scope.

Lemma round_zero_iff (a : R) : 0 <= a -> (round a = 0%Z <-> a < / 2).
Proof.
  intros Ha. unfold round. split.
  - intros H. destruct (base_Int_part (a + / 2)) as [_ H2].
    rewrite H in H2. lra.
  - intros H. symmetry. apply Int_part_spec. lra.
Qed.

Lemma orNA_integer (z : Z) : MapView.orNA (Num (IZR z)) = MapView.NA <-> z = 0%Z.
Proof.
  unfold MapView.orNA. destruct (Req_dec_T (IZR z) 0) as [E | E].
  - split; [| reflexivity]. intros _. now apply eq_IZR.
  - split; [discriminate |]. intros ->. contradiction.
Qed.

Lemma haversine_nonneg (la1 lo1 la2 lo2 : R) : 0 <= haversine la1 lo1 la2 lo2.
Proof. apply haversine_bounds. Qed.

Lemma orNA_value (z : Z) (x : R) :
  MapView.orNA (Num (IZR z)) = MapView.Value x -> x = IZR z /\ z <> 0%Z.
Proof.
  unfold MapView.orNA. destruct (Req_dec_T (IZR z) 0) as [E | E];
    [discriminate |].
  intros H. injection H as <-. split; [reflexivity |].
  intros ->. contradiction.
Qed.

(** The route box of a route between coordinates in range: the distance
    cell reads "N/A" whenever the haversine distance is under 0.4 nautical
    miles and the fuel cell whenever it is under 0.9; a cell that shows a
    number shows an integer of at least 1 (at most 10808 for the distance);
    the ETA cell reads "48 hrs". *)
Theorem route_box_cells (la lo la' lo' : R) (w1 w2 w3 : Z) (q : bool) :
  -90 <= la <= 90 -> -180 <= lo <= 180 ->
  -90 <= la' <= 90 -> -180 <= lo' <= 180 ->
  let r := RouteControls.buildRoute
             {| startLat := Num la; startLon := Num lo;
                destLat := Num la'; destLon := Num lo';
                fuelPriority := w1; timePriority := w2;
                safetyPriority := w3 |} q in
  let h := haversine la lo la' lo' in
  (h < 4 / 10 -> fst (fst (MapView.routeInfo r)) = MapView.NA)
  /\ (h < 9 / 10 -> snd (MapView.routeInfo r) = MapView.NA)
  /\ (forall x, fst (fst (MapView.routeInfo r)) = MapView.Value x ->
       exists D : Z, x = IZR D /\ (1 <= D <= 10808)%Z)
  /\ (forall x, snd (MapView.routeInfo r) = MapView.Value x ->
       exists F : Z, x = IZR F /\ (1 <= F <= 5405)%Z)
  /\ snd (fst (MapView.routeInfo r)) = "48 hrs"%string.
Proof.
  intros _ _ _ _. cbv zeta. unfold MapView.routeInfo. cbn [fst snd].
  pose proof (haversine_le_10808 la lo la' lo') as [Hh0 Hh1].
  assert (fuel (RouteControls.buildRoute
                  {| startLat := Num la; startLon := Num lo;
                     destLat := Num la'; destLon := Num lo';
                     fuelPriority := w1; timePriority := w2;
                     safetyPriority := w3 |} q)
          = Num (IZR (round (haversine la lo la' lo' * / 2)))) as Hfuel.
  { cbn [RouteControls.buildRoute fuel startLat startLon destLat destLon].
    rewrite calculateDistance_haversine. reflexivity. }
  rewrite buildRoute_distance, Hfuel.
  set (h := haversine la lo la' lo') in *.
  split; [| split; [| split; [| split; [| reflexivity]]]].
  - intros H. apply orNA_integer, round_zero_iff; lra.
  - intros H. apply orNA_integer, round_zero_iff; lra.
  - intros x H. apply orNA_value in H. destruct H as [-> Hnz].
    exists (round h). split; [reflexivity |].
    pose proof (round_range h 0 10808) as Hr.
    cbn [IZR] in Hr. specialize (Hr (conj Hh0 Hh1)). lia.
  - intros x H. apply orNA_value in H. destruct H as [-> Hnz].
    exists (round (h * / 2)). split; [reflexivity |].
    pose proof (round_range (h * / 2) 0 5405) as Hr.
    assert (IZR 0 <= h * / 2 <= IZR 5405) as Hb by lra.
    specialize (Hr Hb). lia.
Qed.

Lemma route_box_cells_witness :
  snd (fst (MapView.routeInfo
              (RouteControls.buildRoute
                 {| startLat := Num 10; startLon := Num 80;
                    destLat := Num 1; destLon := Num 104;
                    fuelPriority := 50; timePriority := 30;
                    safetyPriority := 20 |} false)))
  = "48 hrs"%string.
Proof.
  apply (route_box_cells 10 80 1 104 50 30 20 false); lra.
Defined.

End RouteBox.
